(** * Air-hockey game: bounce component and match-state loop

  Shallow embedding of [BounceBehaviour.cpp] and of the scoring part of
  the frame loop of [main.cpp].

  Modelling conventions.
  - A C++ [float] is an IEEE 754 binary32 number.  The bounce component
    computes with them, so it is modelled on [float32], the Standard
    Library's specification of floating-point arithmetic at precision 24
    and maximal exponent 128, rounding to nearest even: rounding, signed
    zeros, infinities and NaN are part of the model.  Every operation is
    rounded on its own, as the compiler's default floating-point mode has
    it: no fused multiply-add, no wider intermediate precision.
  - GLM is a template library, generic in its scalar type.  Its functions
    and the bounce computation are written once, over any type with the
    operations of [Arith], and are also read in exact arithmetic, over [R],
    to say what the formulas give when nothing is rounded.  Statements in
    exact arithmetic assume that no divisor is zero.
  - The frame loop of [main.cpp] only copies positions, compares an
    abscissa with constants and adds a constant to a height; it reads
    floats as real numbers.
  - [int] counters are integers ([Z]); an [int] sum that leaves the 32-bit
    range is undefined behaviour and returns [None].
  - [scene->Lights] is a [std::vector<Light>]: a list, indexed with
    stdpp's lookup and insert.  An index outside the vector is undefined
    behaviour in C++; the model returns [None] there.
  - A null pointer dereference is [None] as well.
  - [printf]/[std::cout] and [Sleep] append to an output trace. *)

From Stdlib Require Import Reals Lra Psatz ZArith QArith Ascii String SpecFloat.
From stdpp Require Import base numbers option list.

#[local] Open Scope R_scope.

(** The newline that ends every line the program prints. *)
Definition endl : string := String (ascii_of_nat 10) EmptyString.

(** [s] followed by a newline. *)
Definition line (s : string) : string := String.append s endl.

(** ** Numbers

  The operations GLM and the component use on their scalar type [T]. *)

Class Arith (T : Type) : Type := {
  (** an integer literal as a [T]: [0.0f], [1.0f], [static_cast<T>(2)] *)
  num : Z → T;
  (** [0.5f] *)
  half : T;
  sadd : T → T → T;
  ssub : T → T → T;
  smul : T → T → T;
  sdiv : T → T → T;
  (** [std::sqrt] *)
  ssqrt : T → T;
  (** unary minus *)
  sneg : T → T
}.

Declare Scope arith_scope.
Delimit Scope arith_scope with A.
Infix "+" := sadd : arith_scope.
Infix "-" := ssub : arith_scope.
Infix "*" := smul : arith_scope.
Infix "/" := sdiv : arith_scope.
Notation "- a" := (sneg a) : arith_scope.

(** *** [float]

  IEEE 754 binary32: 24 bits of precision, exponents up to 128.  The
  operations are those of the Standard Library's specification, which
  round to nearest, ties to even, as the hardware does by default. *)

Module Float32.

Definition prec : Z := 24.
Definition emax : Z := 128.

(** [float] *)
Abbreviation float32 := spec_float.

(** The integer [m] times 2 to the [e], rounded to a [float32]. *)
Definition f32 (m e : Z) : float32 := binary_normalize prec emax m e false.

#[export] Instance binary32 : Arith float32 := {|
  num n := f32 n 0;
  half := f32 1 (-1);
  sadd := SFadd prec emax;
  ssub := SFsub prec emax;
  smul := SFmul prec emax;
  sdiv := SFdiv prec emax;
  ssqrt := SFsqrt prec emax;
  sneg := SFopp
|}.

(** A zero of either sign, or NaN. *)
Definition zero_or_nan (f : float32) : Prop :=
  match f with
  | S754_zero _ | S754_nan => True
  | _ => False
  end.

Definition is_zero (f : float32) : Prop :=
  match f with
  | S754_zero _ => True
  | _ => False
  end.

(** The rational a finite [float32] stands for. *)
Definition to_Q (f : float32) : option Q :=
  match f with
  | S754_zero _ => Some 0%Q
  | S754_finite s m e =>
      let m := inject_Z (if s then Z.neg m else Z.pos m) in
      Some (if bool_decide (0 ≤ e)%Z
            then (m * inject_Z (2 ^ e))%Q
            else (m / inject_Z (2 ^ (- e)))%Q)
  | _ => None
  end.

End Float32.

(** *** Exact arithmetic *)

Module Exact.

#[export] Instance reals : Arith R := {|
  num := IZR;
  half := 0.5;
  sadd := Rplus;
  ssub := Rminus;
  smul := Rmult;
  sdiv := Rdiv;
  ssqrt := sqrt;
  sneg := Ropp
|}.

End Exact.

(** ** GLM vectors and quaternions

  GLM is a third-party header library.  The definitions below follow its
  generic implementations (version 0.9.9, without SIMD), each quoted next
  to its definition, operation by operation and in GLM's order, since the
  order decides how a [float] result is rounded. *)

Module Glm.

(** [glm::vec<3, T>], [glm::vec<4, T>] and [glm::qua<T>], which stores
    w, x, y, z. *)
Record tvec3 (T : Type) : Type := mkVec3 { x : T; y : T; z : T }.
Record tvec4 (T : Type) : Type := mkVec4 { x4 : T; y4 : T; z4 : T; w4 : T }.
Record tquat (T : Type) : Type := mkQuat { qw : T; qx : T; qy : T; qz : T }.

Arguments mkVec3 {T} _ _ _.
Arguments x {T} _.
Arguments y {T} _.
Arguments z {T} _.
Arguments mkVec4 {T} _ _ _ _.
Arguments x4 {T} _.
Arguments y4 {T} _.
Arguments z4 {T} _.
Arguments w4 {T} _.
Arguments mkQuat {T} _ _ _ _.
Arguments qw {T} _.
Arguments qx {T} _.
Arguments qy {T} _.
Arguments qz {T} _.

Section Generic.
Context {T : Type} {A : Arith T}.
#[local] Open Scope arith_scope.

(** [glm::vec3(s)] *)
Definition splat (s : T) : tvec3 T := mkVec3 s s s.

Definition add (a b : tvec3 T) : tvec3 T :=
  mkVec3 (x a + x b) (y a + y b) (z a + z b).
Definition sub (a b : tvec3 T) : tvec3 T :=
  mkVec3 (x a - x b) (y a - y b) (z a - z b).
(** [v * s] *)
Definition scale (v : tvec3 T) (s : T) : tvec3 T :=
  mkVec3 (x v * s) (y v * s) (z v * s).

(** Field assignments [v.x = s], [v.z = s]. *)
Definition set_x (v : tvec3 T) (s : T) : tvec3 T := mkVec3 s (y v) (z v).
Definition set_z (v : tvec3 T) (s : T) : tvec3 T := mkVec3 (x v) (y v) s.

(** [vec<3, T> tmp(a * b); return tmp.x + tmp.y + tmp.z;] *)
Definition dot (a b : tvec3 T) : T := x a * x b + y a * y b + z a * z b.

(** [vec3(x.y * y.z - y.y * x.z, x.z * y.x - y.z * x.x,
          x.x * y.y - y.x * x.y)] *)
Definition cross (a b : tvec3 T) : tvec3 T :=
  mkVec3 (y a * z b - y b * z a)
         (z a * x b - z b * x a)
         (x a * y b - x b * y a).

(** [glm::length(v) = sqrt(dot(v, v))] *)
Definition length (v : tvec3 T) : T := ssqrt (dot v v).

(** [glm::inversesqrt(s) = static_cast<T>(1) / sqrt(s)] *)
Definition inversesqrt (s : T) : T := num 1 / ssqrt s.

(** [glm::normalize(v) = v * inversesqrt(dot(v, v))] *)
Definition normalize (v : tvec3 T) : tvec3 T := scale v (inversesqrt (dot v v)).

(** [glm::reflect(I, N) = I - N * dot(N, I) * static_cast<T>(2)] *)
Definition reflect (I N : tvec3 T) : tvec3 T :=
  sub I (scale (scale N (dot N I)) (num 2)).

(** [glm::vec4(v, w)] and [glm::vec3(v4)] *)
Definition vec4_of (v : tvec3 T) (w : T) : tvec4 T := mkVec4 (x v) (y v) (z v) w.
Definition vec3_of (v : tvec4 T) : tvec3 T := mkVec3 (x4 v) (y4 v) (z4 v).

(** [vec<4, T> tmp(a.w * b.w, a.x * b.x, a.y * b.y, a.z * b.z);
     return (tmp.x + tmp.y) + (tmp.z + tmp.w);] *)
Definition qdot (p q : tquat T) : T :=
  (qw p * qw q + qx p * qx q) + (qy p * qy q + qz p * qz q).
(** [qua(q.w, -q.x, -q.y, -q.z)] *)
Definition conjugate (q : tquat T) : tquat T :=
  mkQuat (qw q) (- qx q) (- qy q) (- qz q).
(** [glm::inverse(q) = conjugate(q) / dot(q, q)] *)
Definition inverse (q : tquat T) : tquat T :=
  let c := conjugate q in
  let d := qdot q q in
  mkQuat (qw c / d) (qx c / d) (qy c / d) (qz c / d).

(** [quat * vec3]:
    [uv = cross(QuatVector, v); uuv = cross(QuatVector, uv);
     return v + ((uv * q.w) + uuv) * static_cast<T>(2);] *)
Definition qrot (q : tquat T) (v : tvec3 T) : tvec3 T :=
  let QuatVector := mkVec3 (qx q) (qy q) (qz q) in
  let uv := cross QuatVector v in
  let uuv := cross QuatVector uv in
  add v (scale (add (scale uv (qw q)) uuv) (num 2)).

(** [quat * vec4] *)
Definition qrot4 (q : tquat T) (v : tvec4 T) : tvec4 T :=
  vec4_of (qrot q (vec3_of v)) (w4 v).

(** [vec4 * quat = inverse(q) * v] *)
Definition vec4_mul_quat (v : tvec4 T) (q : tquat T) : tvec4 T :=
  qrot4 (inverse q) v.

End Generic.

End Glm.

(** ** Engine collaborators (framework code, outside this development) *)

Module Engine.
Import Glm.

(** The calls a rigid body has received, oldest first. *)
Inductive rb_call (T : Type) : Type :=
| CallResetVelocity
| CallApplyImpulse (impulse : tvec3 T)
| CallApplyForce (force : tvec3 T).

Arguments CallResetVelocity {T}.
Arguments CallApplyImpulse {T} _.
Arguments CallApplyForce {T} _.

(** Modelled from the spec: [Gameplay::Physics::RigidBody] is framework
    code that is not part of the sources at hand.  The spec describes it
    as a handle exposing get-velocity, a velocity reset ("resets its
    velocity to zero"), apply-impulse ("an instantaneous change applied
    to a body's velocity") and apply-force, which only takes effect in the
    engine's next physics step.  [Calls] records what the body was asked
    to do. *)
Record RigidBody (T : Type) : Type := mkRigidBody {
  Velocity : tvec3 T;
  Calls : list (rb_call T)
}.

Arguments mkRigidBody {T} _ _.
Arguments Velocity {T} _.
Arguments Calls {T} _.

(** Modelled from the spec: [Gameplay::GameObject] is framework code as
    well.  Of a game object the code at hand uses the name, the position,
    the rotation and the RigidBody component, which may be missing
    ([GetComponent<RigidBody>()] then returns null). *)
Record GameObject (T : Type) : Type := mkGameObject {
  Name : string;
  Position : tvec3 T;
  Rotation : tquat T;
  rigidBody : option (RigidBody T)
}.

Arguments mkGameObject {T} _ _ _ _.
Arguments Name {T} _.
Arguments Position {T} _.
Arguments Rotation {T} _.
Arguments rigidBody {T} _.

Section Generic.
Context {T : Type} {A : Arith T}.

(** Modelled from the spec: the body's current linear velocity. *)
Definition GetVelocity (rb : RigidBody T) : tvec3 T := Velocity rb.

(** Modelled from the spec: "resets its velocity to zero". *)
Definition resetVelocity (rb : RigidBody T) : RigidBody T :=
  mkRigidBody (splat (num 0)) (Calls rb ++ [CallResetVelocity]).

(** Modelled from the spec: an impulse is "an instantaneous change
    applied to a body's velocity"; applied to a body at rest it is "the new
    outgoing velocity". *)
Definition ApplyImpulse (impulse : tvec3 T) (rb : RigidBody T) : RigidBody T :=
  mkRigidBody (add (Velocity rb) impulse)
              (Calls rb ++ [CallApplyImpulse impulse]).

(** Modelled from the spec: a force is handed to the engine, which
    integrates it in its next physics step; the velocity read back in the
    same frame is unchanged. *)
Definition ApplyForce (force : tvec3 T) (rb : RigidBody T) : RigidBody T :=
  mkRigidBody (Velocity rb) (Calls rb ++ [CallApplyForce force]).

Definition SetPostion (p : tvec3 T) (o : GameObject T) : GameObject T :=
  mkGameObject (Name o) p (Rotation o) (rigidBody o).

Definition set_rigidBody (rb : RigidBody T) (o : GameObject T) : GameObject T :=
  mkGameObject (Name o) (Position o) (Rotation o) (Some rb).

End Generic.

End Engine.

(** [glm::vec3] and [glm::quat] are GLM's names for the [float]
    instances; the component sees the engine's objects with them. *)
Module Single.
Export Float32.
Abbreviation vec3 := (Glm.tvec3 float32).
Abbreviation quat := (Glm.tquat float32).
Abbreviation rb_call := (Engine.rb_call float32).
Abbreviation RigidBody := (Engine.RigidBody float32).
Abbreviation GameObject := (Engine.GameObject float32).
End Single.

(** The same names where floats are read as real numbers. *)
Module AsReal.
Export Exact.
Abbreviation vec3 := (Glm.tvec3 R).
Abbreviation quat := (Glm.tquat R).
Abbreviation rb_call := (Engine.rb_call R).
Abbreviation RigidBody := (Engine.RigidBody R).
Abbreviation GameObject := (Engine.GameObject R).
End AsReal.

(** ** BounceBehaviour.cpp *)

Module Bounce.
Import Glm Engine Single.

(** *** The computation of lines 20 to 41 *)

Section Computation.
Context {T : Type} {A : Arith T}.
#[local] Open Scope arith_scope.

(** [glm::vec3(0.0f, 1.0f, 0.0f)], the forward normal. *)
Definition forwVec : tvec3 T := mkVec3 (num 0) (num 1) (num 0).

(** Lines 20-21: the body's velocity with its z component cleared. *)
Definition flat_velocity (rb : Engine.RigidBody T) : tvec3 T :=
  set_z (GetVelocity rb) (num 0).

(** Lines 23-28: the forward normal rotated by the edge's rotation,
    turned inside and flattened. *)
Definition edge_normal (rot : tquat T) : tvec3 T :=
  let edgeVec := vec3_of (vec4_mul_quat (vec4_of forwVec (num 1)) rot) in
  let edgeVec := set_x edgeVec (x edgeVec * num (-1)) in
  set_z edgeVec (num 0).

(** Lines 32-36: the reflected direction, before it is scaled. *)
Definition reflected (rigiVelo edgeVec : tvec3 T) : tvec3 T :=
  let rigiVelo := normalize rigiVelo in
  let edgeVec := normalize edgeVec in
  let refVelo := reflect rigiVelo edgeVec in
  set_z refVelo (num 0).

(** Lines 30 and 38: [refVelo *= speed * 0.5f]. *)
Definition bounce_impulse (rigiVelo edgeVec : tvec3 T) : tvec3 T :=
  let speed := length rigiVelo in
  scale (reflected rigiVelo edgeVec) (speed * half).

(** Line 41: [glm::normalize(refVelo) * 10.0f]. *)
Definition repel (refVelo : tvec3 T) : tvec3 T :=
  scale (normalize refVelo) (num 10).

(** The spec's reflection law, [v - 2 * dot(v, n) * n], its products
    taken from the right. *)
Definition reflection_law (v n : tvec3 T) : tvec3 T :=
  mkVec3 (x v - num 2 * (dot v n * x n))
         (y v - num 2 * (dot v n * y n))
         (z v - num 2 * (dot v n * z n)).

End Computation.

(** *** The component *)

(** Objects live in a store and are referred to by their index; a
    pointer is [None] (null) or [Some] index.  [rigidOBJ] points to the
    RigidBody component of the object at that index, so the component and
    the scene share the body. *)
Abbreviation ref := nat (only parsing).

Record BounceBehaviour : Type := mkBounce {
  gameObj : option ref;
  rigidOBJ : option ref;
  isInCollision : bool;
  reflectionVelocity : vec3;
  repelVelocity : vec3
}.

Record World : Type := mkWorld {
  objects : list GameObject;
  (** the object the component is attached to ([GetGameObject()]) *)
  self : ref;
  comp : BounceBehaviour;
  stdout : list string
}.

Definition printf (s : string) (w : World) : World :=
  mkWorld (objects w) (self w) (comp w) (stdout w ++ [s]).

Definition set_comp (c : BounceBehaviour) (w : World) : World :=
  mkWorld (objects w) (self w) c (stdout w).

Definition set_objects (os : list GameObject) (w : World) : World :=
  mkWorld os (self w) (comp w) (stdout w).

(** The constructor: null pointers, not in collision.  The two cached
    vectors are left uninitialised by the C++ constructor; [r0] and [p0]
    stand for whatever they hold. *)
Definition BounceBehaviour_new (r0 p0 : vec3) : BounceBehaviour :=
  mkBounce None None false r0 p0.

Definition OnEnteredTrigger (trigger : ref) (w : World) : option World :=
  let w := printf (line "OnEnteredTrigger") w in
  let c := comp w in
  match rigidOBJ c with
  | None => Some w
  | Some rb =>
    g ← gameObj c;
    g ← objects w !! g;
    if String.eqb (Name g) "Puck" then
      owner ← objects w !! rb;
      body ← rigidBody owner;
      let rigiVelo := flat_velocity body in
      edge ← objects w !! trigger;
      let edgeVec := edge_normal (Rotation edge) in
      let refVelo := bounce_impulse rigiVelo edgeVec in
      let body := resetVelocity body in
      let body := ApplyImpulse refVelo body in
      let c := mkBounce (gameObj c) (rigidOBJ c) true
                        refVelo (repel refVelo) in
      Some (set_comp c
              (set_objects (<[rb := set_rigidBody body owner]> (objects w)) w))
    else Some w
  end.

Definition OnLeavingTrigger (trigger : ref) (w : World) : option World :=
  let c := comp w in
  let c := mkBounce (gameObj c) (rigidOBJ c) false
                    (reflectionVelocity c) (repelVelocity c) in
  Some (printf (line "OnLeavingTrigger") (set_comp c w)).

Definition Awake (w : World) : option World :=
  let c := comp w in
  let c := mkBounce (Some (self w)) (rigidOBJ c) (isInCollision c)
                    (reflectionVelocity c) (repelVelocity c) in
  g ← objects w !! self w;
  if String.eqb (Name g) "Puck" then
    (* a missing component leaves rigidOBJ null *)
    let r := match rigidBody g with Some _ => Some (self w) | None => None end in
    Some (set_comp (mkBounce (gameObj c) r (isInCollision c)
                             (reflectionVelocity c) (repelVelocity c)) w)
  else Some (set_comp c w).

(** What the constructor establishes and [Awake] keeps: the pointers are
    null or point to the owning object, and a resolved body implies a
    resolved object. *)
Definition attached (w : World) : Prop :=
  (gameObj (comp w) = None ∨ gameObj (comp w) = Some (self w)) ∧
  (rigidOBJ (comp w) = None ∨
   (rigidOBJ (comp w) = Some (self w) ∧ gameObj (comp w) = Some (self w))).

(** The component sits on the puck and [Awake] has resolved both of its
    pointers: [o] is the owning object and [body] its RigidBody. *)
Definition resolved (w : World) (o : GameObject) (body : RigidBody) : Prop :=
  gameObj (comp w) = Some (self w) ∧
  rigidOBJ (comp w) = Some (self w) ∧
  objects w !! self w = Some o ∧
  Name o = "Puck"%string ∧
  rigidBody o = Some body.

(** The rigid body of the object at index [i], if both exist. *)
Definition body_at (i : ref) (w : World) : option RigidBody :=
  objects w !! i ≫= rigidBody.

(** A small scene: a puck moving at (3, 4, 7) whose component is
    resolved, and an unrotated edge. *)
Definition puck_body0 : RigidBody :=
  mkRigidBody (mkVec3 (num 3) (num 4) (num 7)) [].
Definition puck0 : GameObject :=
  mkGameObject "Puck" (mkVec3 (num 0) (num 0) (num 4))
               (mkQuat (num 1) (num 0) (num 0) (num 0)) (Some puck_body0).
Definition edge0 : GameObject :=
  mkGameObject "Edge" (splat (num 0))
               (mkQuat (num 1) (num 0) (num 0) (num 0)) None.
Definition world0 : World :=
  mkWorld [puck0; edge0] 0
          (mkBounce (Some 0%nat) (Some 0%nat) false
                    (splat (num 0)) (splat (num 0))) [].
(** The same scene seen from a component attached to the edge. *)
Definition world1 : World :=
  mkWorld [puck0; edge0] 1
          (mkBounce (Some 1%nat) None false (splat (num 0)) (splat (num 0))) [].

(** The scene with another velocity for the puck. *)
Definition scene_with (v : vec3) : World :=
  mkWorld [mkGameObject "Puck" (mkVec3 (num 0) (num 0) (num 4))
                        (mkQuat (num 1) (num 0) (num 0) (num 0))
                        (Some (mkRigidBody v []));
           edge0] 0
          (mkBounce (Some 0%nat) (Some 0%nat) false
                    (splat (num 0)) (splat (num 0))) [].

End Bounce.

(** ** main.cpp: scoring, goal detection and win reset *)

Module Game.
Import Glm AsReal.

#[export] Instance Rle_decision (a b : R) : Decision (a <= b) := Rle_dec a b.
#[export] Instance Rge_decision (a b : R) : Decision (a >= b) := Rge_dec a b.

Record Light : Type := mkLight {
  Position : vec3;
  Color : vec3;
  Range : R
}.

(** What the program writes to [std::cout] and how long it sleeps,
    oldest first. *)
Inductive event : Type :=
| Cout (text : string)
| Sleep (ms : Z).

(** The globals of main.cpp together with the part of the scene the
    scoring code reads and writes.  [puck] is what
    [scene->FindObjectByName("Puck")] resolves to. *)
Record World : Type := mkWorld {
  lScore : Z;
  rScore : Z;
  resetCheck : bool;
  Lights : list Light;
  puck : Engine.GameObject R;
  out : list event
}.

Definition black : vec3 := splat 0.
Definition yellow : vec3 := mkVec3 1 1 0.

Definition set_lScore (n : Z) (w : World) : World :=
  mkWorld n (rScore w) (resetCheck w) (Lights w) (puck w) (out w).
Definition set_rScore (n : Z) (w : World) : World :=
  mkWorld (lScore w) n (resetCheck w) (Lights w) (puck w) (out w).
Definition set_resetCheck (b : bool) (w : World) : World :=
  mkWorld (lScore w) (rScore w) b (Lights w) (puck w) (out w).
Definition set_Lights (ls : list Light) (w : World) : World :=
  mkWorld (lScore w) (rScore w) (resetCheck w) ls (puck w) (out w).
Definition set_puck (o : Engine.GameObject R) (w : World) : World :=
  mkWorld (lScore w) (rScore w) (resetCheck w) (Lights w) o (out w).
Definition emit (e : event) (w : World) : World :=
  mkWorld (lScore w) (rScore w) (resetCheck w) (Lights w) (puck w)
          (out w ++ [e]).

(** A statement: it fails ([None]) on undefined behaviour. *)
Definition stmt : Type := World → option World.

Definition seq_stmt (s t : stmt) : stmt := λ w, s w ≫= t.
Infix ">>" := seq_stmt (at level 65, right associativity).
Definition skip : stmt := Some.
Definition pure (f : World → World) : stmt := λ w, Some (f w).

(** [scene->Lights[i]]: inside the vector or undefined. *)
Definition light_at (i : Z) (w : World) : option Light :=
  if bool_decide (0 ≤ i)%Z then Lights w !! Z.to_nat i else None.

(** [scene->Lights[i].Color = c] *)
Definition set_light_color (i : Z) (c : vec3) : stmt := λ w,
  l ← light_at i w;
  Some (set_Lights (<[Z.to_nat i := mkLight (Position l) c (Range l)]> (Lights w)) w).

(** [scene->Lights[i].Position = p] *)
Definition set_light_position (i : Z) (p : vec3) : stmt := λ w,
  l ← light_at i w;
  Some (set_Lights (<[Z.to_nat i := mkLight p (Color l) (Range l)]> (Lights w)) w).

(** [int] arithmetic: a sum outside the 32-bit range is undefined
    behaviour. *)
Definition INT_MIN : Z := -2147483648.
Definition INT_MAX : Z := 2147483647.
Definition int_add (a b : Z) : option Z :=
  let r := (a + b)%Z in
  if bool_decide (INT_MIN ≤ r ≤ INT_MAX)%Z then Some r else None.

Definition scoreCheck (isLeft : bool) : stmt := λ w,
  if isLeft then
    n ← int_add (lScore w) 1;
    let w := set_lScore n w in
    set_light_color (lScore w) yellow w
  else
    n ← int_add (rScore w) 1;
    let w := set_rScore n w in
    i ← int_add (rScore w) 4;
    set_light_color i yellow w.

Definition scoreCheckReset : stmt := λ w,
  let w :=
    if bool_decide (lScore w >= 4)%Z then
      let w := emit (Cout (line "Red Player Wins !!!!!!!!!")) w in
      let w := set_lScore 0 w in
      let w := set_rScore 0 w in
      set_resetCheck true w
    else w in
  let w :=
    if bool_decide (rScore w >= 4)%Z then
      let w := emit (Cout (line "Blue Player Wins !!!!!!!!!")) w in
      let w := set_lScore 0 w in
      let w := set_rScore 0 w in
      set_resetCheck true w
    else w in
  Some w.

(** [for (int i = 1; i < 9; i++) scene->Lights[i].Color = black;] *)
Definition lightReset_indices : list Z := seqZ 1 (9 - 1).

Definition lightReset : stmt := λ w,
  foldl (λ acc i, acc ≫= set_light_color i black) (Some w) lightReset_indices.

Definition checkIsReseting : stmt := λ w,
  let gObj_puck := puck w in
  if resetCheck w then
    let w := emit (Cout (line "RESETING GAME!!!!!")) w in
    let w := set_puck (Engine.SetPostion (mkVec3 0 0 4) gObj_puck) w in
    w ← lightReset w;
    let w := set_resetCheck false w in
    Some (emit (Sleep 1000) w)
  else Some w.

(** [rigid_puck->m(...)] for a method [m] of the puck's body; a puck
    without a RigidBody component makes [rigid_puck] null. *)
Definition on_rigid_puck (m : Engine.RigidBody R → Engine.RigidBody R) : stmt := λ w,
  rb ← Engine.rigidBody (puck w);
  Some (set_puck (Engine.set_rigidBody (m rb) (puck w)) w).

(** What reaches one iteration of the game loop from outside: the puck's
    transform and body as the engine leaves them after [scene->Update]
    and [scene->DoPhysics] (which run the trigger callbacks), and the
    state of the four arrow keys. *)
Record FrameInput : Type := mkFrameInput {
  in_position : vec3;
  in_rotation : quat;
  in_body : Engine.RigidBody R;
  key_up : bool;
  key_down : bool;
  key_right : bool;
  key_left : bool
}.

Definition engine_update (inp : FrameInput) : stmt := λ w,
  let o := puck w in
  let rb := match Engine.rigidBody o with
            | Some _ => Some (in_body inp)
            | None => None
            end in
  Some (set_puck (Engine.mkGameObject (Engine.Name o) (in_position inp)
                                      (in_rotation inp) rb) w).

Definition when (b : bool) (s : stmt) : stmt := if b then s else skip.

(** Lines 1328-1350: the arrow keys push the puck. *)
Definition key_forces (inp : FrameInput) : stmt :=
  when (key_up inp) (on_rigid_puck (Engine.ApplyForce (mkVec3 0 10 0))) >>
  when (key_down inp) (on_rigid_puck (Engine.ApplyForce (mkVec3 0 (-10) 0))) >>
  when (key_right inp) (on_rigid_puck (Engine.ApplyForce (mkVec3 10 0 0))) >>
  when (key_left inp) (on_rigid_puck (Engine.ApplyForce (mkVec3 (-10) 0 0))).

(** Lines 1414-1426.  Both tests read the position cached in [puckPos]. *)
Definition goal_detection : stmt := λ w,
  let puckPos := Engine.Position (puck w) in
  (when (bool_decide (x puckPos <= -17.6))
     (scoreCheck false >>
      pure (λ w, set_puck (Engine.SetPostion (mkVec3 9.5 0 (-1)) (puck w)) w) >>
      on_rigid_puck Engine.resetVelocity) >>
   when (bool_decide (x puckPos >= 17.6))
     (scoreCheck true >>
      pure (λ w, set_puck (Engine.SetPostion (mkVec3 (-9.5) 0 (-1)) (puck w)) w) >>
      on_rigid_puck Engine.resetVelocity)) w.

(** Line 1428: light 9 follows the puck. *)
Definition follow_puck : stmt := λ w,
  let p := Engine.Position (puck w) in
  set_light_position 9 (mkVec3 (x p) (y p) (z p + 3)) w.

(** One iteration of the game loop, restricted to the statements that
    touch the score, the lights or the puck.  Rendering, the editor
    windows, the paddles and the start-up count-down are left out. *)
Definition frame (inp : FrameInput) : stmt :=
  checkIsReseting >>
  scoreCheckReset >>
  engine_update inp >>
  key_forces inp >>
  goal_detection >>
  follow_puck.

Fixpoint run (inps : list FrameInput) (w : World) : option World :=
  match inps with
  | [] => Some w
  | inp :: rest => frame inp w ≫= run rest
  end.

(** The lights as [CreateScene] sets them up (lines 411-451). *)
Definition CreateScene_Lights : list Light :=
  [ mkLight (mkVec3 0 0 10) (mkVec3 1 1 1) 300;
    mkLight (mkVec3 (-14.840) 13.340 (-6.560)) black 2;
    mkLight (mkVec3 (-14.720) (-12.980) (-6.620)) black 2;
    mkLight (mkVec3 (-4.460) 15.460 (-6.590)) black 2;
    mkLight (mkVec3 (-4.450) (-15.180) (-6.600)) black 2;
    mkLight (mkVec3 15.330 13.320 (-6.600)) black 2;
    mkLight (mkVec3 15.040 (-13.320) (-6.570)) black 2;
    mkLight (mkVec3 4.350 15.380 (-6.570)) black 2;
    mkLight (mkVec3 4.540 (-15.540) (-6.570)) black 2;
    mkLight (mkVec3 0 0 10) (mkVec3 0.043 0.043 0) (-13) ].

(** The puck as [CreateScene] builds it (lines 645-660): rotated by 90
    degrees about x, placed at the centre, with a dynamic body at rest. *)
Definition CreateScene_puck : Engine.GameObject R :=
  Engine.mkGameObject "Puck" (mkVec3 0 0 4)
    (mkQuat (cos (PI / 4)) (sin (PI / 4)) 0 0)
    (Some (Engine.mkRigidBody (splat 0) [])).

(** The state in which the game loop is entered. *)
Definition init : World :=
  mkWorld 0 0 false CreateScene_Lights CreateScene_puck [].

(** *** Vocabulary for the statements about the loop *)

(** The index [scoreCheck] writes to: the counter after its increment,
    shifted by 4 for the right side. *)
Definition scoreCheck_index (isLeft : bool) (w : World) : Z :=
  if isLeft then lScore w + 1 else rScore w + 1 + 4.

(** The statements of a frame that run before goal detection. *)
Definition before_goal_detection (inp : FrameInput) : stmt :=
  checkIsReseting >> scoreCheckReset >> engine_update inp >> key_forces inp.

(** Which goal, if any, the puck position delivered in a frame makes. *)
Definition left_goal (inp : FrameInput) : bool :=
  bool_decide (x (in_position inp) >= 17.6).
Definition right_goal (inp : FrameInput) : bool :=
  bool_decide (x (in_position inp) <= -17.6).

Definition goals (side : FrameInput → bool) (inps : list FrameInput) : Z :=
  Z.of_nat (List.length (List.filter side inps)).

(** What holds between two iterations of the loop: ten lights, a puck
    with a body, counters between 0 and 4. *)
Definition between_frames (w : World) : Prop :=
  List.length (Lights w) = 10%nat ∧
  is_Some (Engine.rigidBody (puck w)) ∧
  (0 ≤ lScore w ≤ 4)%Z ∧ (0 ≤ rScore w ≤ 4)%Z.

(** What holds when goal detection starts: as above, with both counters
    below 4. *)
Definition at_goal_detection (w : World) : Prop :=
  List.length (Lights w) = 10%nat ∧
  is_Some (Engine.rigidBody (puck w)) ∧
  (0 ≤ lScore w < 4)%Z ∧ (0 ≤ rScore w < 4)%Z.

#[export] Instance vec3_eq_dec : EqDecision vec3.
Proof.
  intros [a1 a2 a3] [b1 b2 b3].
  destruct (Req_dec_T a1 b1) as [->|]; [|right; congruence].
  destruct (Req_dec_T a2 b2) as [->|]; [|right; congruence].
  destruct (Req_dec_T a3 b3) as [->|]; [|right; congruence].
  left; reflexivity.
Defined.

Definition colors (w : World) : list vec3 := Color <$> Lights w.

(** How many of the [len] lights from index [lo] on are yellow. *)
Definition lit_count (lo len : nat) (w : World) : nat :=
  List.length (filter (λ c, c = yellow) (take len (drop lo (colors w)))).

(** The colour of pip [k] of a side whose counter is [n]. *)
Definition pip (k n : Z) : vec3 :=
  if bool_decide (k ≤ n)%Z then yellow else black.

(** The colours of the ten lights when the counters are [n] and [m] and
    no win is pending. *)
Definition score_colors (n m : Z) : list vec3 :=
  [ mkVec3 1 1 1;
    pip 1 n; pip 2 n; pip 3 n; pip 4 n;
    pip 1 m; pip 2 m; pip 3 m; pip 4 m;
    mkVec3 0.043 0.043 0 ].

(** A light switched off, and the lights after [lightReset]: lights 1 to
    8 off, the others as they were. *)
Definition dark (l : Light) : Light := mkLight (Position l) black (Range l).
Definition reset_lights (ls : list Light) : list Light :=
  take 1 ls ++ (dark <$> take 8 (drop 1 ls)) ++ drop 9 ls.

(** A frame input that places the puck at abscissa [px], with no key
    pressed. *)
Definition input_at (px : R) : FrameInput :=
  mkFrameInput (mkVec3 px 0 (-1)) (mkQuat 1 0 0 0)
               (Engine.mkRigidBody (mkVec3 1 0 0) []) false false false false.

(** The initial state with the puck moved to abscissa [px], and with a
    win reset pending. *)
Definition world_with_puck_at (px : R) : World :=
  set_puck (Engine.SetPostion (mkVec3 px 0 (-1)) (puck init)) init.
Definition world_reset_pending : World := set_resetCheck true init.

(** Three frames: a left goal, a right goal, a frame without goal. *)
Definition three_frames : list FrameInput :=
  [input_at 18; input_at (-18); input_at 0].

(** Three frames with a left goal each. *)
Definition three_left_goals : list FrameInput :=
  [input_at 18; input_at 18; input_at 18].

End Game.

(** ** BounceBehaviour.cpp: the remaining callbacks and serialisation *)

Module BounceEvents.
Import Glm Engine Single Bounce.

(** The two callbacks of the trigger-volume side only print. *)
Definition OnTriggerVolumeEntered (trigger : ref) (w : World) : option World :=
  Some (printf (line "OnTriggerVolumeEntered") w).

Definition OnTriggerVolumeLeaving (trigger : ref) (w : World) : option World :=
  Some (printf (line "OnTriggerVolumeLeaving") w).

(** A JSON value, as far as the component needs one. *)
#[warnings="-register-all"]
Inductive json : Type :=
| json_null
| json_boolean (b : bool)
| json_number (n : Z)
| json_string (s : string)
| json_array (elements : list json)
| json_object (members : list (string * json)).

(** [return { }]: the component has nothing to save. *)
Definition ToJson (c : BounceBehaviour) : json := json_null.

(** [std::make_shared<BounceBehaviour>()]: the blob is not read; [r0] and
    [p0] stand for the two vectors the constructor leaves uninitialised. *)
Definition FromJson (blob : json) (r0 p0 : vec3) : BounceBehaviour :=
  BounceBehaviour_new r0 p0.

(** The callbacks the physics engine can deliver to the component. *)
Inductive callback : Type :=
| EnteredTrigger (trigger : ref)
| LeavingTrigger (trigger : ref)
| TriggerVolumeEntered (body : ref)
| TriggerVolumeLeaving (body : ref).

Definition deliver (e : callback) (w : World) : option World :=
  match e with
  | EnteredTrigger t => OnEnteredTrigger t w
  | LeavingTrigger t => OnLeavingTrigger t w
  | TriggerVolumeEntered b => OnTriggerVolumeEntered b w
  | TriggerVolumeLeaving b => OnTriggerVolumeLeaving b w
  end.

Fixpoint deliver_all (es : list callback) (w : World) : option World :=
  match es with
  | [] => Some w
  | e :: es => deliver e w ≫= deliver_all es
  end.

(** What [isInCollision] holds after a callback, given what it held. *)
Definition in_collision_after (e : callback) (b : bool) : bool :=
  match e with
  | EnteredTrigger _ => true
  | LeavingTrigger _ => false
  | _ => b
  end.

(** The trigger references a list of callbacks reads a rotation from. *)
Fixpoint entered_triggers (es : list callback) : list ref :=
  match es with
  | [] => []
  | EnteredTrigger t :: es => t :: entered_triggers es
  | _ :: es => entered_triggers es
  end.

(** A rotation about the z axis: the unit quaternion with half-angle
    cosine [c] and sine [s]. *)
Definition quat_about_z (c s : R) : tquat R := mkQuat c 0 0 s.

(** A component rebuilt by [FromJson] on the puck of the small scene. *)
Definition world_reloaded : World :=
  mkWorld [puck0; edge0] 0
          (FromJson json_null (splat (num 0)) (splat (num 0))) [].

End BounceEvents.

(** ** main.cpp: key forces, paddles, count-down and the lights editor *)

Module Controls.
Import Glm Engine AsReal.

#[export] Instance Rgt_decision (a b : R) : Decision (a > b) := Rgt_dec a b.

(** The sum of the forces among the calls a body received. *)
Fixpoint net_force (calls : list rb_call) : vec3 :=
  match calls with
  | [] => splat 0
  | CallApplyForce f :: calls => add f (net_force calls)
  | _ :: calls => net_force calls
  end.

(** Lines 1388-1408: the blue paddle moves by [keyMoveSpeed] per key, each
    time from the position cached in [pbPos]. *)
Definition keyMoveSpeed : R := 0.1.

Definition paddle_blue_control (key_W key_A key_S key_D : bool)
           (paddle_B : GameObject) : GameObject :=
  let pbPos := Position paddle_B in
  let paddle_B :=
    if key_W
    then SetPostion (mkVec3 (x pbPos) (y pbPos + keyMoveSpeed) (z pbPos)) paddle_B
    else paddle_B in
  let paddle_B :=
    if key_A
    then SetPostion (mkVec3 (x pbPos - keyMoveSpeed) (y pbPos) (z pbPos)) paddle_B
    else paddle_B in
  let paddle_B :=
    if key_S
    then SetPostion (mkVec3 (x pbPos) (y pbPos - keyMoveSpeed) (z pbPos)) paddle_B
    else paddle_B in
  if key_D
  then SetPostion (mkVec3 (x pbPos + keyMoveSpeed) (y pbPos) (z pbPos)) paddle_B
  else paddle_B.

(** The globals [f0_cursorPosX], [f0_cursorPosY] and the local
    [isFirstClick] of [main], which live across frames. *)
Record Mouse : Type := mkMouse {
  f0_cursorPosX : R;
  f0_cursorPosY : R;
  isFirstClick : bool
}.

(** What a frame reads for the red paddle: the state of mouse button 0,
    the cursor position returned inside the branch, the one returned by the
    call that ends the block, and the window size. *)
Record MouseInput : Type := mkMouseInput {
  button_pressed : bool;
  cursor_read : R * R;
  cursor_latch : R * R;
  windowX : Z;
  windowY : Z
}.

(** Lines 1356-1386. *)
Definition paddle_red_control (inp : MouseInput) (m : Mouse)
           (paddle_R : GameObject) : Mouse * GameObject :=
  let '(m, paddle_R) :=
    if button_pressed inp then
      if negb (isFirstClick m) then
        let cursorX := fst (cursor_read inp) in
        let cursorY := snd (cursor_read inp) in
        let doub_winX := IZR (windowX inp) / 2 in
        let doub_winY := IZR (windowY inp) / 2 in
        let cursorX := cursorX / doub_winX in
        let cursorY := cursorY / doub_winY in
        let f0X := f0_cursorPosX m / doub_winX in
        let f0Y := f0_cursorPosY m / doub_winY in
        let dCursorPos := mkVec3 (cursorX - f0X) (- (cursorY - f0Y)) 0 in
        (mkMouse f0X f0Y (isFirstClick m),
         SetPostion (add (Position paddle_R) (scale dCursorPos 20)) paddle_R)
      else
        (mkMouse (fst (cursor_read inp)) (snd (cursor_read inp)) false, paddle_R)
    else (m, paddle_R) in
  (mkMouse (fst (cursor_latch inp)) (snd (cursor_latch inp)) (isFirstClick m),
   paddle_R).

Fixpoint paddle_red_frames (inps : list MouseInput) (m : Mouse)
         (paddle_R : GameObject) : Mouse * GameObject :=
  match inps with
  | [] => (m, paddle_R)
  | inp :: inps =>
    let '(m, paddle_R) := paddle_red_control inp m paddle_R in
    paddle_red_frames inps m paddle_R
  end.

(** The cursor position a run of frames ends with: the last latch, or the
    baseline [m] holds when there is no frame. *)
Definition last_latch (inps : list MouseInput) (m : Mouse) : R * R :=
  match last inps with
  | Some inp => cursor_latch inp
  | None => (f0_cursorPosX m, f0_cursorPosY m)
  end.

(** A frame of a steady drag: button held, one cursor position for both
    reads, window of size [wx] by [wy]. *)
Definition steady_drag (wx wy : Z) (inp : MouseInput) : Prop :=
  button_pressed inp = true ∧ cursor_read inp = cursor_latch inp ∧
  windowX inp = wx ∧ windowY inp = wy.

(** Lines 1314-1315: [while (countDown > 0) countDown -= dt;].  [None]
    when [fuel] iterations do not reach the end of the loop. *)
Fixpoint countDown_loop (fuel : nat) (dt countDown : R) : option R :=
  if bool_decide (countDown > 0) then
    match fuel with
    | O => None
    | S fuel => countDown_loop fuel dt (countDown - dt)
    end
  else Some countDown.

(** A paddle, a mouse that has been clicked before, and two frames of a
    drag in a window of 800 by 600. *)
Definition paddle0 : GameObject :=
  mkGameObject "Paddle_red" (mkVec3 (-5) 0 (-8.01)) (mkQuat 1 0 0 0) None.
Definition mouse0 : Mouse := mkMouse 400 300 false.
Definition drag0 : list MouseInput :=
  [mkMouseInput true (410, 300) (410, 300) 800 600;
   mkMouseInput true (420, 330) (420, 330) 800 600].

End Controls.

Module LoopTerms.
Import Glm AsReal Game.

(** What holds between frames in every run from the initial state, beyond
    [between_frames]: the counters are never both at 4, and while a reset
    is pending at most one goal has been counted since the win. *)
Definition one_winner (w : World) : Prop :=
  between_frames w ∧
  ¬ (lScore w = 4 ∧ rScore w = 4)%Z ∧
  (resetCheck w = true → (lScore w + rScore w ≤ 1)%Z).

(** Two light vectors with the same fixtures: the same ranges, the same
    positions for lights 0 to 8, the same colours for lights 0 and 9. *)
Definition same_fixtures (ls ls' : list Light) : Prop :=
  Range <$> ls' = Range <$> ls ∧
  Position <$> take 9 ls' = Position <$> take 9 ls ∧
  (Color <$> ls') !! 0%nat = (Color <$> ls) !! 0%nat ∧
  (Color <$> ls') !! 9%nat = (Color <$> ls) !! 9%nat.

(** 1 for a pressed key or a goal made, 0 otherwise. *)
Definition one_if (b : bool) : R := if b then 1 else 0.
Definition Z_one_if (b : bool) : Z := if b then 1%Z else 0%Z.
Definition nat_one_if (b : bool) : nat := if b then 1%nat else 0%nat.

(** The two lines [scoreCheckReset] can print. *)
Definition red_wins : event := Cout (line "Red Player Wins !!!!!!!!!").
Definition blue_wins : event := Cout (line "Blue Player Wins !!!!!!!!!").

(** Four left goals, a fifth in the frame that announces the win, and a
    frame without goal. *)
Definition win_then_goal : list FrameInput :=
  three_left_goals ++ [input_at 18; input_at 18].

End LoopTerms.

Module Editor.
Import Glm AsReal Game.

(** What the ImGui widgets of one [DrawLightImGui] call do to the light
    they are shown: the light after the drags and whether "Delete" was
    pressed. *)
Definition gui : Type := Light → Light * bool.

(** Lines 201-218.  [scene->Lights[ix]] must exist. *)
Definition DrawLightImGui (g : gui) (ix : Z) (w : World) : option (World * bool) :=
  light ← light_at ix w;
  let '(light, result) := g light in
  Some (set_Lights (<[Z.to_nat ix := light]> (Lights w)) w, result).

(** Lines 1200-1211: the loop over the lights of the debugging window.  [ix] is an [int] compared
    with an unsigned size, so a negative [ix] would end the loop.  [gs k] is
    the response to the [k]-th call; [None] when [fuel] iterations do not
    reach the end of the loop. *)
Fixpoint lights_loop (fuel : nat) (gs : nat → gui) (calls : nat) (ix : Z)
         (w : World) : option World :=
  if bool_decide (0 ≤ ix < Z.of_nat (List.length (Lights w)))%Z then
    match fuel with
    | O => None
    | S fuel =>
      r ← DrawLightImGui (gs calls) ix w;
      let '(w, deleted) := r in
      if deleted : bool then
        let w := set_Lights (delete (Z.to_nat ix) (Lights w)) w in
        let ix := (ix - 1)%Z in
        lights_loop fuel gs (S calls) (ix + 1) w
      else lights_loop fuel gs (S calls) (ix + 1) w
    end
  else Some w.

(** What the loop amounts to: every light is shown once, in order, and is
    kept, as edited, unless its "Delete" was pressed. *)
Fixpoint edited (gs : nat → gui) (calls : nat) (ls : list Light) : list Light :=
  match ls with
  | [] => []
  | l :: ls =>
    let '(l', deleted) := gs calls l in
    if deleted : bool then edited gs (S calls) ls
    else l' :: edited gs (S calls) ls
  end.

(** How many of these lights have their "Delete" pressed. *)
Fixpoint deletions (gs : nat → gui) (calls : nat) (ls : list Light) : nat :=
  match ls with
  | [] => 0
  | l :: ls =>
    let '(_, deleted) := gs calls l in
    (if deleted : bool then 1 else 0) + deletions gs (S calls) ls
  end.

(** A user who deletes the light shown third and touches nothing else. *)
Definition delete_third : nat → gui :=
  λ k l, (l, bool_decide (k = 2%nat)).

End Editor.

(** ** Facts about [float] arithmetic *)

Module Float32Facts.
Import Float32.

Lemma smul_comm (a b : float32) : smul a b = smul b a.
Proof.
  change (SFmul prec emax a b = SFmul prec emax b a).
  destruct a as [sa|sa| |sa ma ea], b as [sb|sb| |sb mb eb]; cbn [SFmul];
    rewrite ?(xorb_comm sa sb), ?(Pos.mul_comm ma mb), ?(Z.add_comm ea eb);
    reflexivity.
Qed.

(** NaN is absorbing. *)
Lemma smul_nan_l (b : float32) : smul S754_nan b = S754_nan.
Proof. reflexivity. Qed.

Lemma smul_nan_r (a : float32) : smul a S754_nan = S754_nan.
Proof. destruct a; reflexivity. Qed.

Lemma sadd_nan_r (a : float32) : sadd a S754_nan = S754_nan.
Proof. destruct a; reflexivity. Qed.

Lemma ssqrt_nan : ssqrt S754_nan = S754_nan.
Proof. reflexivity. Qed.

Lemma sdiv_nan_r (a : float32) : sdiv a S754_nan = S754_nan.
Proof. destruct a; reflexivity. Qed.

(** Zero times anything is a zero or NaN, and so is a sum of such. *)
Lemma smul_zero_or_nan (a b : float32) :
  zero_or_nan a → zero_or_nan (smul a b).
Proof. intros H. destruct a, b; cbn [zero_or_nan] in H; try contradiction; exact I. Qed.

Lemma sadd_zero_or_nan (a b : float32) :
  zero_or_nan a → zero_or_nan b → zero_or_nan (sadd a b).
Proof.
  intros Ha Hb.
  destruct a as [[]| | |], b as [[]| | |]; cbn [zero_or_nan] in Ha, Hb;
    try contradiction; exact I.
Qed.

(** The square of a zero is +0. *)
Lemma smul_zero_self (a : float32) : is_zero a → smul a a = S754_zero false.
Proof. intros H. destruct a as [[]| | |]; try contradiction; reflexivity. Qed.

(** A zero times infinity is NaN. *)
Lemma smul_zero_inf (a : float32) (s : bool) :
  is_zero a → smul a (S754_infinity s) = S754_nan.
Proof. intros H. destruct a; try contradiction; reflexivity. Qed.

End Float32Facts.

(** ** Facts about the bounce *)

Module BounceFacts.
Import Glm Engine Single Exact Bounce Float32Facts.

(** *** The trigger callback *)

(** What [OnEnteredTrigger] does on a resolved puck. *)
Lemma OnEnteredTrigger_puck (w : World) (trigger : ref)
      (o edge : GameObject) (body : RigidBody) :
  resolved w o body →
  objects w !! trigger = Some edge →
  let refVelo := bounce_impulse (flat_velocity body)
                                (edge_normal (Rotation edge)) in
  let body' := ApplyImpulse refVelo (resetVelocity body) in
  OnEnteredTrigger trigger w =
    Some (mkWorld (<[self w := set_rigidBody body' o]> (objects w))
                  (self w)
                  (mkBounce (Some (self w)) (Some (self w)) true refVelo
                            (repel refVelo))
                  (stdout w ++ [line "OnEnteredTrigger"])).
Proof.
  intros (Hg & Hr & Ho & Hn & Hb) He refVelo body'.
  unfold OnEnteredTrigger. cbn [comp printf objects].
  rewrite Hr, Hg. cbn [mbind option_bind]. rewrite Ho. cbn [mbind option_bind].
  rewrite Hn, String.eqb_refl. cbv beta iota.
  rewrite Hb. cbn [mbind option_bind].
  rewrite He. cbn [mbind option_bind]. reflexivity.
Qed.

Lemma body_at_puck (w : World) (o : GameObject) (body' : RigidBody)
      (c : BounceBehaviour) (out : list string) :
  objects w !! self w = Some o →
  body_at (self w)
          (mkWorld (<[self w := set_rigidBody body' o]> (objects w))
                   (self w) c out) = Some body'.
Proof.
  intros Ho. unfold body_at. cbn [objects].
  rewrite list_lookup_insert_eq by (eapply lookup_lt_Some; exact Ho).
  reflexivity.
Qed.

(** The constructor leaves the component attached, and [Awake] keeps it
    so. *)
Lemma attached_new (os : list GameObject) (i : ref) (r0 p0 : vec3)
      (out : list string) :
  attached (mkWorld os i (BounceBehaviour_new r0 p0) out).
Proof. split; left; reflexivity. Qed.

Lemma Awake_attached (w w' : World) :
  Awake w = Some w' → attached w → attached w'.
Proof.
  unfold Awake. intros H Ha.
  destruct (objects w !! self w) as [g|]; [|discriminate].
  cbn [mbind option_bind] in H.
  destruct (String.eqb (Name g) "Puck").
  - injection H as <-. unfold attached; cbn.
    split; [right; reflexivity|].
    destruct (rigidBody g); [right; split; reflexivity | left; reflexivity].
  - injection H as <-. unfold attached; cbn.
    split; [right; reflexivity|].
    destruct Ha as [_ [Hr | [Hr _]]]; [left | right]; rewrite Hr; auto.
Qed.

(** [Awake] on a freshly built component of a puck that has a body
    resolves both pointers. *)
Lemma Awake_resolved (os : list GameObject) (i : ref) (r0 p0 : vec3)
      (out : list string) (o : GameObject) (body : RigidBody) :
  os !! i = Some o → Name o = "Puck"%string → rigidBody o = Some body →
  ∃ w', Awake (mkWorld os i (BounceBehaviour_new r0 p0) out) = Some w' ∧
        resolved w' o body.
Proof.
  intros Ho Hn Hb. unfold Awake. cbn [objects self comp].
  rewrite Ho. cbn [mbind option_bind]. rewrite Hn, String.eqb_refl, Hb.
  eexists; split; [reflexivity|].
  repeat split; cbn; auto.
Qed.

Lemma resolved_world0 : resolved world0 puck0 puck_body0.
Proof. repeat split. Qed.

Lemma resolved_scene_with (v : vec3) :
  ∃ o, resolved (scene_with v) o (mkRigidBody v []).
Proof. eexists. repeat split. Qed.

(** *** The reflection law in [float] arithmetic *)

Lemma dot_comm (a b : vec3) : dot a b = dot b a.
Proof.
  unfold dot.
  rewrite (smul_comm (x a)), (smul_comm (y a)), (smul_comm (z a)). reflexivity.
Qed.

(** GLM's [reflect] computes the spec's formula: the two differ in the
    order of the factors only, which no [float] product depends on. *)
Lemma reflect_law (v n : vec3) : reflect v n = reflection_law v n.
Proof.
  unfold reflect, reflection_law, sub, scale. cbn [x y z].
  rewrite (dot_comm n v).
  rewrite !(smul_comm _ (num 2)), !(smul_comm _ (dot v n)). reflexivity.
Qed.

(** C1. On a trigger-enter event delivered to the component of the puck
    with a resolved body, whatever [float] values the velocity and the
    rotation of the edge hold: with [v] the normalised flattened velocity
    and [n] the normalised flattened inward normal, the reflected vector
    computed is [v - 2 * dot v n * n], in [float] arithmetic, and is then
    flattened again; the body is reset and then receives as impulse that
    vector times [0.5] times the length of the flattened velocity, which
    is also cached as [reflectionVelocity]. *)
Theorem C1_reflection_law (w : World) (trigger : ref)
        (o edge : GameObject) (body : RigidBody) :
  resolved w o body →
  objects w !! trigger = Some edge →
  let flat := mkVec3 (x (Velocity body)) (y (Velocity body)) (num 0) in
  let v := normalize flat in
  let n := normalize (edge_normal (Rotation edge)) in
  let r := set_z (reflection_law v n) (num 0) in
  let impulse := scale r (smul half (length flat)) in
  reflect v n = reflection_law v n ∧
  reflected flat (edge_normal (Rotation edge)) = r ∧
  ∃ w' body',
    OnEnteredTrigger trigger w = Some w' ∧
    body_at (self w) w' = Some body' ∧
    Calls body' = Calls body ++ [CallResetVelocity; CallApplyImpulse impulse] ∧
    reflectionVelocity (comp w') = impulse ∧
    isInCollision (comp w') = true.
Proof.
  intros Hres He flat v n r impulse.
  assert (Hr : reflected flat (edge_normal (Rotation edge)) = r).
  { unfold reflected, r. fold v n. rewrite reflect_law. reflexivity. }
  assert (Himp : bounce_impulse (flat_velocity body)
                   (edge_normal (Rotation edge)) = impulse).
  { change (flat_velocity body) with flat.
    unfold bounce_impulse, impulse. rewrite Hr, smul_comm. reflexivity. }
  split; [apply reflect_law|]. split; [exact Hr|].
  rewrite (OnEnteredTrigger_puck w trigger o edge body Hres He). rewrite Himp.
  destruct Hres as (_ & _ & Ho & _ & _).
  eexists _, _. split; [reflexivity|].
  split; [apply body_at_puck; exact Ho|].
  cbn [Calls ApplyImpulse resetVelocity comp reflectionVelocity isInCollision].
  rewrite <- app_assoc. auto.
Qed.

(** A puck arriving at (3, 4, 7) on an unrotated edge receives the
    impulse (1.5, -2, 0). *)
Lemma C1_reflection_law_witness :
  ∃ w' body',
    OnEnteredTrigger 1 world0 = Some w' ∧
    body_at 0 w' = Some body' ∧
    Calls body' = [CallResetVelocity;
                   CallApplyImpulse (mkVec3 (f32 3 (-1)) (num (-2)) (num 0))] ∧
    reflectionVelocity (comp w') = mkVec3 (f32 3 (-1)) (num (-2)) (num 0) ∧
    isInCollision (comp w') = true.
Proof.
  destruct (C1_reflection_law world0 1 puck0 edge0 puck_body0)
    as (_ & _ & w' & b' & H1 & H2 & H3 & H4 & H5).
  - exact resolved_world0.
  - reflexivity.
  - exists w', b'. split; [exact H1|]. split; [exact H2|].
    split; [rewrite H3; vm_compute; reflexivity|].
    split; [rewrite H4; vm_compute; reflexivity | exact H5].
Defined.

(** *** The half-speed relation *)

(** In exact arithmetic the products and sums of [Arith] are those of the
    real numbers. *)
Ltac in_reals := cbv [num half sadd ssub smul sdiv ssqrt sneg reals] in *.

Lemma dot_nonneg (v : tvec3 R) : 0 <= dot v v.
Proof. unfold dot. in_reals. nra. Qed.

Lemma dot_scale (v : tvec3 R) (s : R) :
  dot (scale v s) (scale v s) = s * s * dot v v.
Proof. unfold dot, scale. cbn [x y z]. in_reals. ring. Qed.

Lemma dot_normalize (v : tvec3 R) :
  dot v v ≠ 0 → dot (normalize v) (normalize v) = 1.
Proof.
  intros Hv. unfold normalize, inversesqrt. rewrite dot_scale.
  pose proof (dot_nonneg v) as Hd.
  assert (Hs : 0 < sqrt (dot v v)) by (apply sqrt_lt_R0; lra).
  change (num 1 / ssqrt (dot v v))%A with (1 / sqrt (dot v v)).
  rewrite <- (sqrt_sqrt (dot v v)) at 3 by lra.
  field. lra.
Qed.

Lemma dot_reflect (v n : tvec3 R) :
  dot n n = 1 → dot (reflect v n) (reflect v n) = dot v v.
Proof.
  intros Hn. unfold reflect.
  transitivity (dot v v + 4 * (dot n v) * (dot n v) * (dot n n - 1)).
  - unfold dot, sub, scale. cbn [x y z]. in_reals. ring.
  - rewrite Hn. ring.
Qed.

Lemma length_scale (v : tvec3 R) (s : R) :
  0 <= s → length (scale v s) = s * length v.
Proof.
  intros Hs. unfold length. rewrite dot_scale.
  change (ssqrt (s * s * dot v v) = s * ssqrt (dot v v))
    with (sqrt (s * s * dot v v) = s * sqrt (dot v v)).
  rewrite sqrt_mult by (try apply dot_nonneg; nra).
  rewrite sqrt_square by lra. reflexivity.
Qed.

Lemma z_normalize (v : tvec3 R) : z v = 0 → z (normalize v) = 0.
Proof. intros H. unfold normalize, scale. cbn [z]. rewrite H. in_reals. ring. Qed.

Lemma z_reflect (v n : tvec3 R) : z v = 0 → z n = 0 → z (reflect v n) = 0.
Proof.
  intros Hv Hn. unfold reflect, sub, scale. cbn [z]. rewrite Hv, Hn.
  in_reals. ring.
Qed.

Lemma set_z_same (v : tvec3 R) : z v = 0 → set_z v (num 0) = v.
Proof. destruct v as [a b c]. cbn [z]. intros ->. reflexivity. Qed.

(** With a flattened velocity and a flattened normal that are not zero,
    the reflected direction has length 1. *)
Lemma length_reflected (rigiVelo edgeVec : tvec3 R) :
  z rigiVelo = 0 → z edgeVec = 0 →
  length rigiVelo ≠ 0 → length edgeVec ≠ 0 →
  length (reflected rigiVelo edgeVec) = 1.
Proof.
  intros Hzv Hzn Hv Hn.
  assert (Hdv : dot rigiVelo rigiVelo ≠ 0).
  { intros H0. apply Hv. unfold length. rewrite H0. apply sqrt_0. }
  assert (Hdn : dot edgeVec edgeVec ≠ 0).
  { intros H0. apply Hn. unfold length. rewrite H0. apply sqrt_0. }
  unfold reflected.
  rewrite set_z_same by (apply z_reflect; apply z_normalize; assumption).
  unfold length. rewrite dot_reflect by (apply dot_normalize; exact Hdn).
  rewrite dot_normalize by exact Hdv. apply sqrt_1.
Qed.

Lemma length_nonneg (v : tvec3 R) : 0 <= length v.
Proof. apply sqrt_pos. Qed.

(** In exact arithmetic the impulse of a bounce has half the length of
    the flattened velocity. *)
Lemma length_bounce_impulse (rigiVelo edgeVec : tvec3 R) :
  z rigiVelo = 0 → z edgeVec = 0 →
  length rigiVelo ≠ 0 → length edgeVec ≠ 0 →
  length (bounce_impulse rigiVelo edgeVec) = 0.5 * length rigiVelo.
Proof.
  intros Hzv Hzn Hv Hn. unfold bounce_impulse.
  pose proof (length_nonneg rigiVelo) as Hl.
  change (length rigiVelo * half)%A with (length rigiVelo * 0.5).
  rewrite length_scale by lra.
  rewrite length_reflected by assumption. lra.
Qed.

(** C2, as amended.  The velocity after a bounce is the impulse
    [bounce_impulse], the reflected direction scaled by [speed * 0.5f], as
    [float] arithmetic computes it from the flattened velocity.  In exact
    arithmetic, for a flattened velocity that is not zero and an edge
    whose rotation and flattened inward normal are not zero, that impulse
    has half the length of the flattened velocity, whatever the incoming
    direction and the rotation of the edge. *)
Theorem C2_half_speed (w : World) (trigger : ref)
        (o edge : GameObject) (body : RigidBody)
        (vel : tvec3 R) (rot : tquat R) :
  resolved w o body →
  objects w !! trigger = Some edge →
  let flat := mkVec3 (x (Velocity body)) (y (Velocity body)) (num 0) in
  let exact_flat := mkVec3 (x vel) (y vel) 0 in
  qdot rot rot ≠ 0 →
  length exact_flat ≠ 0 →
  length (edge_normal rot) ≠ 0 →
  (∃ w' body',
     let impulse := bounce_impulse flat (edge_normal (Rotation edge)) in
     OnEnteredTrigger trigger w = Some w' ∧
     body_at (self w) w' = Some body' ∧
     Calls body' = Calls body ++ [CallResetVelocity; CallApplyImpulse impulse] ∧
     Velocity body' = add (splat (num 0)) impulse ∧
     reflectionVelocity (comp w') = impulse) ∧
  length (bounce_impulse exact_flat (edge_normal rot)) = 0.5 * length exact_flat.
Proof.
  intros Hres He flat exact_flat _ Hv Hn. split.
  - rewrite (OnEnteredTrigger_puck w trigger o edge body Hres He).
    destruct Hres as (_ & _ & Ho & _ & _).
    eexists _, _. split; [reflexivity|].
    split; [apply body_at_puck; exact Ho|].
    cbn [Velocity Calls ApplyImpulse resetVelocity comp reflectionVelocity].
    rewrite <- app_assoc. auto.
  - apply length_bounce_impulse; auto.
Qed.

(** *** A concrete bounce in exact arithmetic *)

Lemma length_nonzero (v : tvec3 R) : 0 < dot v v → length v ≠ 0.
Proof.
  intros H. unfold length. pose proof (sqrt_lt_R0 _ H).
  change (ssqrt (dot v v)) with (sqrt (dot v v)). lra.
Qed.

Lemma edge_normal_identity :
  edge_normal (mkQuat 1 0 0 0) = mkVec3 0 1 0 :> tvec3 R.
Proof.
  cbv [edge_normal vec4_mul_quat qrot4 qrot inverse conjugate qdot
       cross add scale set_x set_z vec3_of vec4_of forwVec
       x y z x4 y4 z4 w4 qw qx qy qz
       num half sadd ssub smul sdiv ssqrt sneg reals].
  f_equal; field.
Qed.

Lemma length_345 : length (mkVec3 3 4 0) = 5.
Proof.
  unfold length, dot. cbn [x y z]. in_reals.
  replace (3 * 3 + 4 * 4 + 0 * 0) with (5 * 5) by ring.
  apply sqrt_square; lra.
Qed.

(** A puck arriving at (3, 4, 7): in exact arithmetic the impulse has
    length 2.5. *)
Lemma C2_half_speed_witness :
  (∃ w' body',
     OnEnteredTrigger 1 world0 = Some w' ∧
     body_at 0 w' = Some body' ∧
     Velocity body' = mkVec3 (f32 3 (-1)) (num (-2)) (num 0)) ∧
  length (bounce_impulse (mkVec3 3 4 0) (mkVec3 0 1 0)) = 2.5.
Proof.
  destruct (C2_half_speed world0 1 puck0 edge0 puck_body0
              (mkVec3 3 4 7) (mkQuat 1 0 0 0))
    as ((w' & b' & H1 & H2 & _ & H4 & _) & H).
  - exact resolved_world0.
  - reflexivity.
  - cbv [qdot qw qx qy qz]. in_reals. lra.
  - apply length_nonzero. unfold dot. cbn [x y z]. in_reals. lra.
  - rewrite edge_normal_identity.
    apply length_nonzero. unfold dot. cbn [x y z]. in_reals. lra.
  - split.
    + exists w', b'. split; [exact H1|]. split; [exact H2|].
      rewrite H4. vm_compute. reflexivity.
    + rewrite edge_normal_identity in H. cbn [x y] in H.
      rewrite H, length_345. lra.
Defined.

(** C2, as stated, fails: with "exactly" it does not hold in [float]
    arithmetic.  A puck arriving at (1, 1, 0) on an unrotated edge, whose
    flattened inward normal (-0, 1, 0) has length 1: the speed before the
    bounce is 11863283 * 2^-23, about 1.4142135, and half of it is
    11863283 * 2^-24; the impulse is (16777215 * 2^-25, -16777215 * 2^-25,
    0), of length 11863282 * 2^-24 as [glm::length] computes it.  As
    exact numbers, the square of the length of the impulse is not a
    quarter of the square of the speed, 2, either. *)
Lemma C2_half_speed_not_exact :
  let v := mkVec3 (num 1) (num 1) (num 0) : vec3 in
  ∃ w' body' impulse,
    OnEnteredTrigger 1 (scene_with v) = Some w' ∧
    body_at 0 w' = Some body' ∧
    Calls body' = [CallResetVelocity; CallApplyImpulse impulse] ∧
    Velocity body' = impulse ∧
    length (edge_normal (Rotation edge0)) = num 1 ∧
    length (flat_velocity (mkRigidBody v [])) = f32 11863283 (-23) ∧
    smul half (length (flat_velocity (mkRigidBody v []))) = f32 11863283 (-24) ∧
    length impulse = f32 11863282 (-24) ∧
    length impulse ≠ smul half (length (flat_velocity (mkRigidBody v []))) ∧
    ∃ ix iy iz : Q,
      to_Q (x impulse) = Some ix ∧ to_Q (y impulse) = Some iy ∧
      to_Q (z impulse) = Some iz ∧
      ¬ (ix * ix + iy * iy + iz * iz == (1 # 4) * (1 * 1 + 1 * 1 + 0 * 0))%Q.
Proof.
  intros v. eexists _, _, _.
  split; [vm_compute; reflexivity|].
  split; [vm_compute; reflexivity|].
  split; [reflexivity|]. split; [vm_compute; reflexivity|].
  split; [vm_compute; reflexivity|]. split; [vm_compute; reflexivity|].
  split; [vm_compute; reflexivity|]. split; [vm_compute; reflexivity|].
  split; [vm_compute; discriminate|].
  eexists _, _, _.
  split; [vm_compute; reflexivity|]. split; [vm_compute; reflexivity|].
  split; [vm_compute; reflexivity|].
  vm_compute. discriminate.
Qed.

(** C6. On a component whose owning object is not named "Puck",
    [OnEnteredTrigger] only prints its line: the component's fields and
    every object of the scene, rigid bodies included, stay as they
    were. *)
Theorem C6_not_puck_noop (w : World) (trigger : ref) (o : GameObject) :
  attached w →
  objects w !! self w = Some o →
  Name o ≠ "Puck"%string →
  ∃ w',
    OnEnteredTrigger trigger w = Some w' ∧
    comp w' = comp w ∧
    objects w' = objects w ∧
    stdout w' = stdout w ++ [line "OnEnteredTrigger"].
Proof.
  intros [Hg Hr] Ho Hn.
  apply String.eqb_neq in Hn.
  unfold OnEnteredTrigger. cbn [comp printf objects].
  destruct Hr as [Hr | [Hr Hg']].
  - rewrite Hr. eexists; split; [reflexivity|]. cbn; auto.
  - rewrite Hr, Hg'. cbn [mbind option_bind]. rewrite Ho.
    cbn [mbind option_bind]. rewrite Hn.
    eexists; split; [reflexivity|]. cbn; auto.
Qed.

Lemma C6_not_puck_noop_witness :
  ∃ w',
    OnEnteredTrigger 0 world1 = Some w' ∧
    comp w' = comp world1 ∧
    objects w' = objects world1 ∧
    stdout w' = [line "OnEnteredTrigger"].
Proof.
  apply (C6_not_puck_noop world1 0 edge0).
  - split; [right; reflexivity | left; reflexivity].
  - reflexivity.
  - discriminate.
Defined.

End BounceFacts.
(** ** Facts about the loop *)

Module GameFacts.
Import Glm AsReal Game.

#[local] Arguments line : simpl never.

Ltac unfold_setters :=
  unfold emit, set_resetCheck, set_Lights, set_puck, set_lScore, set_rScore;
  cbn [lScore rScore resetCheck Lights puck out].

(** *** Lights *)

Lemma light_at_Some (i : Z) (w : World) :
  (0 ≤ i)%Z → (Z.to_nat i < List.length (Lights w))%nat →
  ∃ l, Lights w !! Z.to_nat i = Some l ∧ light_at i w = Some l.
Proof.
  intros Hi Hlt. destruct (lookup_lt_is_Some_2 _ _ Hlt) as [l Hl].
  exists l. split; [exact Hl|].
  unfold light_at. rewrite bool_decide_eq_true_2 by exact Hi. exact Hl.
Qed.

Lemma int_add_small (a b : Z) :
  (-2147483648 ≤ a + b ≤ 2147483647)%Z → int_add a b = Some (a + b)%Z.
Proof.
  intros H. unfold int_add. cbv zeta. rewrite bool_decide_eq_true_2 by exact H.
  reflexivity.
Qed.

Lemma set_light_color_Some (i : Z) (c : vec3) (w : World) :
  (0 ≤ i)%Z → (Z.to_nat i < List.length (Lights w))%nat →
  ∃ l, Lights w !! Z.to_nat i = Some l ∧
       set_light_color i c w =
       Some (set_Lights (<[Z.to_nat i := mkLight (Position l) c (Range l)]>
                           (Lights w)) w).
Proof.
  intros Hi Hlt. destruct (light_at_Some i w Hi Hlt) as (l & Hl & Hat).
  exists l. split; [exact Hl|].
  unfold set_light_color. rewrite Hat. reflexivity.
Qed.

Lemma set_light_position_Some (i : Z) (p : vec3) (w : World) :
  (0 ≤ i)%Z → (Z.to_nat i < List.length (Lights w))%nat →
  ∃ l, Lights w !! Z.to_nat i = Some l ∧
       set_light_position i p w =
       Some (set_Lights (<[Z.to_nat i := mkLight p (Color l) (Range l)]>
                           (Lights w)) w).
Proof.
  intros Hi Hlt. destruct (light_at_Some i w Hi Hlt) as (l & Hl & Hat).
  exists l. split; [exact Hl|].
  unfold set_light_position. rewrite Hat. reflexivity.
Qed.

Lemma colors_insert_color (ls : list Light) (n : nat) (p c : vec3) (r : R) :
  Color <$> <[n := mkLight p c r]> ls = <[n := c]> (Color <$> ls).
Proof. rewrite list_fmap_insert. reflexivity. Qed.

Lemma colors_insert_position (ls : list Light) (n : nat) (l : Light) (p : vec3) :
  ls !! n = Some l →
  Color <$> <[n := mkLight p (Color l) (Range l)]> ls = Color <$> ls.
Proof.
  intros Hl. rewrite list_fmap_insert. cbn [Color].
  apply list_insert_id. rewrite list_lookup_fmap, Hl. reflexivity.
Qed.

Lemma lightReset_Some (w : World) :
  (9 ≤ List.length (Lights w))%nat →
  lightReset w = Some (set_Lights (reset_lights (Lights w)) w).
Proof.
  intros Hlen. unfold lightReset, set_light_color, light_at.
  destruct w as [l r rc ls p o]. cbn [Lights] in *.
  do 9 (destruct ls as [|? ls]; [cbn in Hlen; lia|]).
  reflexivity.
Qed.

Lemma length_reset_lights (ls : list Light) :
  List.length (reset_lights ls) = List.length ls.
Proof.
  unfold reset_lights.
  rewrite !length_app, length_fmap, !length_take, !length_drop. lia.
Qed.

(** *** The statements of a frame, one by one *)

Lemma seq_Some (s t : stmt) (w w1 : World) :
  s w = Some w1 → (s >> t) w = t w1.
Proof. unfold seq_stmt. intros ->. reflexivity. Qed.

Lemma checkIsReseting_idle (w : World) :
  resetCheck w = false → checkIsReseting w = Some w.
Proof. unfold checkIsReseting. intros ->. reflexivity. Qed.

Lemma checkIsReseting_pending (w : World) :
  resetCheck w = true → (9 ≤ List.length (Lights w))%nat →
  checkIsReseting w =
  Some (mkWorld (lScore w) (rScore w) false (reset_lights (Lights w))
                (Engine.SetPostion (mkVec3 0 0 4) (puck w))
                (out w ++ [Cout (line "RESETING GAME!!!!!"); Sleep 1000])).
Proof.
  intros Hrc Hlen. unfold checkIsReseting. rewrite Hrc.
  rewrite lightReset_Some by exact Hlen. cbn [mbind option_bind].
  unfold_setters. rewrite <- app_assoc. reflexivity.
Qed.

Lemma scoreCheckReset_low (w : World) :
  (lScore w < 4)%Z → (rScore w < 4)%Z → scoreCheckReset w = Some w.
Proof.
  intros Hl Hr. unfold scoreCheckReset.
  rewrite (bool_decide_eq_false_2 (lScore w >= 4)%Z) by lia. cbv zeta.
  rewrite (bool_decide_eq_false_2 (rScore w >= 4)%Z) by lia. reflexivity.
Qed.

Lemma scoreCheckReset_win (w : World) :
  (4 ≤ lScore w ∨ 4 ≤ rScore w)%Z →
  ∃ w', scoreCheckReset w = Some w' ∧
        lScore w' = 0%Z ∧ rScore w' = 0%Z ∧ resetCheck w' = true ∧
        Lights w' = Lights w ∧ puck w' = puck w.
Proof.
  intros H. unfold scoreCheckReset.
  destruct (bool_decide (lScore w >= 4)%Z) eqn:El; cbv zeta; unfold_setters.
  - rewrite bool_decide_eq_false_2 by lia.
    eexists; split; [reflexivity|]. cbn [lScore rScore resetCheck Lights puck]. auto.
  - apply bool_decide_eq_false_1 in El.
    rewrite bool_decide_eq_true_2 by lia.
    eexists; split; [reflexivity|]. cbn [lScore rScore resetCheck Lights puck]. auto.
Qed.

Lemma on_rigid_puck_Some (m : Engine.RigidBody R → Engine.RigidBody R)
      (w : World) (rb : Engine.RigidBody R) :
  Engine.rigidBody (puck w) = Some rb →
  on_rigid_puck m w = Some (set_puck (Engine.set_rigidBody (m rb) (puck w)) w).
Proof. unfold on_rigid_puck. intros ->. reflexivity. Qed.

(** The arrow keys only send forces to the body: its velocity, the
    puck's transform, the lights and the counters stay. *)
Lemma key_forces_Some (inp : FrameInput) (w : World) (rb : Engine.RigidBody R) :
  Engine.rigidBody (puck w) = Some rb →
  ∃ rb', key_forces inp w = Some (set_puck (Engine.set_rigidBody rb' (puck w)) w) ∧
         Engine.Velocity rb' = Engine.Velocity rb.
Proof.
  destruct w as [l r rc ls [nm pos rot b] o]. cbn [puck Engine.rigidBody].
  intros ->. unfold key_forces, seq_stmt, when, skip, on_rigid_puck.
  destruct (key_up inp), (key_down inp), (key_right inp), (key_left inp);
    cbn; eexists; (split; [reflexivity|]); reflexivity.
Qed.

Lemma goal_detection_none (w : World) :
  -17.6 < x (Engine.Position (puck w)) < 17.6 → goal_detection w = Some w.
Proof.
  intros Hx. unfold goal_detection, seq_stmt.
  rewrite !bool_decide_eq_false_2 by lra. reflexivity.
Qed.

Lemma goal_detection_right (w : World) (rb : Engine.RigidBody R) :
  at_goal_detection w →
  Engine.rigidBody (puck w) = Some rb →
  x (Engine.Position (puck w)) <= -17.6 →
  ∃ l, Lights w !! Z.to_nat (rScore w + 1 + 4) = Some l ∧
       goal_detection w =
       Some (mkWorld (lScore w) (rScore w + 1) (resetCheck w)
               (<[Z.to_nat (rScore w + 1 + 4) :=
                    mkLight (Position l) yellow (Range l)]> (Lights w))
               (Engine.mkGameObject (Engine.Name (puck w)) (mkVec3 9.5 0 (-1))
                  (Engine.Rotation (puck w)) (Some (Engine.resetVelocity rb)))
               (out w)).
Proof.
  intros (Hlen & _ & Hl & Hr) Hb Hx.
  destruct (set_light_color_Some (rScore w + 1 + 4) yellow
              (set_rScore (rScore w + 1) w)) as (l & Hlk & Hset);
    [lia | cbn [Lights set_rScore]; lia |].
  exists l. split; [exact Hlk|].
  unfold goal_detection, seq_stmt.
  rewrite (bool_decide_eq_true_2 (x (Engine.Position (puck w)) <= -17.6)) by exact Hx.
  rewrite (bool_decide_eq_false_2 (x (Engine.Position (puck w)) >= 17.6)) by lra.
  cbn [when]. unfold scoreCheck.
  rewrite !int_add_small by (cbn [rScore set_rScore]; lia).
  cbn [mbind option_bind]. rewrite !int_add_small by (cbn [rScore set_rScore]; lia).
  cbn [mbind option_bind rScore set_rScore] in Hset |- *.
  rewrite Hset. cbn [mbind option_bind pure].
  unfold on_rigid_puck. cbn. rewrite Hb. reflexivity.
Qed.

Lemma goal_detection_left (w : World) (rb : Engine.RigidBody R) :
  at_goal_detection w →
  Engine.rigidBody (puck w) = Some rb →
  x (Engine.Position (puck w)) >= 17.6 →
  ∃ l, Lights w !! Z.to_nat (lScore w + 1) = Some l ∧
       goal_detection w =
       Some (mkWorld (lScore w + 1) (rScore w) (resetCheck w)
               (<[Z.to_nat (lScore w + 1) :=
                    mkLight (Position l) yellow (Range l)]> (Lights w))
               (Engine.mkGameObject (Engine.Name (puck w)) (mkVec3 (-9.5) 0 (-1))
                  (Engine.Rotation (puck w)) (Some (Engine.resetVelocity rb)))
               (out w)).
Proof.
  intros (Hlen & _ & Hl & Hr) Hb Hx.
  destruct (set_light_color_Some (lScore w + 1) yellow
              (set_lScore (lScore w + 1) w)) as (l & Hlk & Hset);
    [lia | cbn [Lights set_lScore]; lia |].
  exists l. split; [exact Hlk|].
  unfold goal_detection, seq_stmt.
  rewrite (bool_decide_eq_false_2 (x (Engine.Position (puck w)) <= -17.6)) by lra.
  rewrite (bool_decide_eq_true_2 (x (Engine.Position (puck w)) >= 17.6)) by exact Hx.
  cbn [when skip mbind option_bind]. unfold scoreCheck.
  rewrite int_add_small by lia.
  cbn [mbind option_bind lScore set_lScore] in Hset |- *.
  rewrite Hset. cbn [mbind option_bind pure].
  unfold on_rigid_puck. cbn. rewrite Hb. reflexivity.
Qed.

Lemma follow_puck_Some (w : World) :
  List.length (Lights w) = 10%nat →
  ∃ l, Lights w !! 9%nat = Some l ∧
       follow_puck w =
       Some (set_Lights
               (<[9%nat := mkLight (mkVec3 (x (Engine.Position (puck w)))
                                           (y (Engine.Position (puck w)))
                                           (z (Engine.Position (puck w)) + 3))
                                   (Color l) (Range l)]> (Lights w)) w).
Proof.
  intros Hlen.
  destruct (set_light_position_Some 9
              (mkVec3 (x (Engine.Position (puck w)))
                      (y (Engine.Position (puck w)))
                      (z (Engine.Position (puck w)) + 3)) w)
    as (l & Hl & Hset); [lia | rewrite Hlen; cbn; lia |].
  exists l. split; [exact Hl|]. exact Hset.
Qed.

(** *** A whole frame *)

Lemma frame_split (inp : FrameInput) (w : World) :
  frame inp w = before_goal_detection inp w ≫= (goal_detection >> follow_puck).
Proof.
  unfold frame, before_goal_detection, seq_stmt.
  destruct (checkIsReseting w) as [w1|]; [|reflexivity]. cbn [mbind option_bind].
  destruct (scoreCheckReset w1) as [w2|]; [|reflexivity]. cbn [mbind option_bind].
  destruct (engine_update inp w2) as [w3|]; [|reflexivity]. cbn [mbind option_bind].
  destruct (key_forces inp w3) as [w4|]; reflexivity.
Qed.

Lemma checkIsReseting_Some (w : World) :
  (9 ≤ List.length (Lights w))%nat →
  ∃ w', checkIsReseting w = Some w' ∧
        lScore w' = lScore w ∧ rScore w' = rScore w ∧ resetCheck w' = false ∧
        Lights w' = (if resetCheck w then reset_lights (Lights w) else Lights w) ∧
        Engine.rigidBody (puck w') = Engine.rigidBody (puck w).
Proof.
  intros Hlen. destruct (resetCheck w) eqn:Hrc.
  - rewrite checkIsReseting_pending by assumption.
    eexists; split; [reflexivity|]. cbn. auto.
  - rewrite checkIsReseting_idle by assumption.
    eexists; split; [reflexivity|]. auto.
Qed.

Lemma scoreCheckReset_Some (w : World) :
  ∃ w', scoreCheckReset w = Some w' ∧
        Lights w' = Lights w ∧ puck w' = puck w ∧
        ((lScore w < 4 ∧ rScore w < 4)%Z → w' = w) ∧
        ((4 ≤ lScore w ∨ 4 ≤ rScore w)%Z →
         lScore w' = 0%Z ∧ rScore w' = 0%Z ∧ resetCheck w' = true).
Proof.
  destruct (decide (lScore w < 4 ∧ rScore w < 4)%Z) as [[Hl Hr]|Hn].
  - rewrite scoreCheckReset_low by assumption.
    eexists; split; [reflexivity|]. repeat split; auto; lia.
  - destruct (scoreCheckReset_win w) as (w' & Hw' & H1 & H2 & H3 & H4 & H5); [lia|].
    exists w'. repeat split; auto; lia.
Qed.

Lemma before_goal_detection_spec (inp : FrameInput) (w : World) :
  between_frames w →
  ∃ w1, before_goal_detection inp w = Some w1 ∧
        at_goal_detection w1 ∧
        Engine.Position (puck w1) = in_position inp ∧
        ((lScore w < 4 ∧ rScore w < 4)%Z →
         lScore w1 = lScore w ∧ rScore w1 = rScore w ∧ resetCheck w1 = false) ∧
        ((4 ≤ lScore w ∨ 4 ≤ rScore w)%Z →
         lScore w1 = 0%Z ∧ rScore w1 = 0%Z ∧ resetCheck w1 = true) ∧
        Lights w1 = (if resetCheck w then reset_lights (Lights w) else Lights w).
Proof.
  intros (Hlen & [rb Hb] & Hl & Hr).
  destruct (checkIsReseting_Some w) as (wa & Ha & Hal & Har & Harc & HaL & Hab);
    [lia|].
  destruct (scoreCheckReset_Some wa) as (wb & Hwb & HbL & Hbp & Hlow & Hwin).
  assert (Hbb : Engine.rigidBody (puck wb) = Some rb) by congruence.
  pose (wc := set_puck (Engine.mkGameObject (Engine.Name (puck wb))
                          (in_position inp) (in_rotation inp)
                          (Some (in_body inp))) wb).
  assert (Hwc : engine_update inp wb = Some wc).
  { unfold engine_update. rewrite Hbb. reflexivity. }
  destruct (key_forces_Some inp wc (in_body inp)) as (rb' & Hwd & _);
    [reflexivity|].
  eexists. split.
  { unfold before_goal_detection.
    rewrite (seq_Some _ _ _ _ Ha), (seq_Some _ _ _ _ Hwb), (seq_Some _ _ _ _ Hwc).
    exact Hwd. }
  assert (HLen : List.length (Lights wb) = 10%nat).
  { rewrite HbL, HaL. destruct (resetCheck w); [rewrite length_reset_lights|]; exact Hlen. }
  subst wc. unfold at_goal_detection, set_puck.
  cbn [puck Lights lScore rScore resetCheck Engine.Position
       Engine.set_rigidBody Engine.rigidBody].
  destruct (decide (lScore w < 4 ∧ rScore w < 4)%Z) as [Hlo|Hhi].
  - assert (wb = wa) as -> by (apply Hlow; lia).
    repeat split; try (eexists; reflexivity); try lia; try congruence.
  - destruct Hwin as (H1 & H2 & H3); [lia|].
    repeat split; try (eexists; reflexivity); try lia; try congruence.
Qed.

Lemma goal_detection_spec (w : World) :
  at_goal_detection w →
  ∃ w', goal_detection w = Some w' ∧
        at_goal_detection w ∧
        List.length (Lights w') = 10%nat ∧
        is_Some (Engine.rigidBody (puck w')) ∧
        resetCheck w' = resetCheck w ∧
        out w' = out w ∧
        let px := x (Engine.Position (puck w)) in
        lScore w' = (lScore w + if bool_decide (px >= 17.6)%R then 1 else 0)%Z ∧
        rScore w' = (rScore w + if bool_decide (px <= -17.6)%R then 1 else 0)%Z ∧
        colors w' =
          (if bool_decide (px >= 17.6)
           then <[Z.to_nat (lScore w + 1) := yellow]> (colors w)
           else if bool_decide (px <= -17.6)
                then <[Z.to_nat (rScore w + 1 + 4) := yellow]> (colors w)
                else colors w).
Proof.
  intros Hat. pose proof Hat as (Hlen & [rb Hb] & Hl & Hr).
  destruct (Rle_dec (x (Engine.Position (puck w))) (-17.6)) as [Hle|Hnle];
    [|destruct (Rge_dec (x (Engine.Position (puck w))) 17.6) as [Hge|Hnge]].
  - destruct (goal_detection_right w rb Hat Hb Hle) as (l & Hlk & Hg).
    eexists. split; [exact Hg|]. cbv zeta.
    rewrite (bool_decide_eq_false_2 (_ >= _)) by lra.
    rewrite (bool_decide_eq_true_2 (_ <= _)) by lra.
    unfold colors. cbn. rewrite length_insert, colors_insert_color.
    repeat split; auto; try lia; try (eexists; reflexivity).
  - destruct (goal_detection_left w rb Hat Hb Hge) as (l & Hlk & Hg).
    eexists. split; [exact Hg|]. cbv zeta.
    rewrite (bool_decide_eq_true_2 (_ >= _)) by lra.
    rewrite (bool_decide_eq_false_2 (_ <= _)) by lra.
    unfold colors. cbn. rewrite length_insert, colors_insert_color.
    repeat split; auto; try lia; try (eexists; reflexivity).
  - rewrite goal_detection_none by lra.
    eexists. split; [reflexivity|]. cbv zeta.
    rewrite (bool_decide_eq_false_2 (_ >= _)) by lra.
    rewrite (bool_decide_eq_false_2 (_ <= _)) by lra.
    repeat split; auto; try lia; try (exists rb; exact Hb).
Qed.

(** One frame from a state between frames: it runs to completion, the
    state in which goal detection starts has both counters below 4, and
    the counters, flag and colours at the end are as stated. *)
Lemma frame_spec (inp : FrameInput) (w : World) :
  between_frames w →
  ∃ w1 w', before_goal_detection inp w = Some w1 ∧
           frame inp w = Some w' ∧
           at_goal_detection w1 ∧
           ((lScore w < 4 ∧ rScore w < 4)%Z →
            lScore w1 = lScore w ∧ rScore w1 = rScore w ∧ resetCheck w1 = false) ∧
           ((4 ≤ lScore w ∨ 4 ≤ rScore w)%Z →
            lScore w1 = 0%Z ∧ rScore w1 = 0%Z ∧ resetCheck w1 = true) ∧
           colors w1 = (if resetCheck w then Color <$> reset_lights (Lights w)
                        else colors w) ∧
           between_frames w' ∧
           resetCheck w' = resetCheck w1 ∧
           lScore w' = (lScore w1 + if left_goal inp then 1 else 0)%Z ∧
           rScore w' = (rScore w1 + if right_goal inp then 1 else 0)%Z ∧
           colors w' =
             (if left_goal inp
              then <[Z.to_nat (lScore w1 + 1) := yellow]> (colors w1)
              else if right_goal inp
                   then <[Z.to_nat (rScore w1 + 1 + 4) := yellow]> (colors w1)
                   else colors w1).
Proof.
  intros Hbf.
  destruct (before_goal_detection_spec inp w Hbf)
    as (w1 & Hw1 & Hat & Hpos & Hlow & Hwin & HL).
  destruct (goal_detection_spec w1 Hat)
    as (w2 & Hw2 & _ & Hlen2 & Hb2 & Hrc2 & _ & Hl2 & Hr2 & Hc2).
  rewrite Hpos in Hl2, Hr2, Hc2. fold (left_goal inp) (right_goal inp) in Hl2, Hr2, Hc2.
  destruct (follow_puck_Some w2 Hlen2) as (l9 & Hl9 & Hw3).
  exists w1. eexists. split; [exact Hw1|]. split.
  { rewrite frame_split, Hw1. cbn [mbind option_bind].
    rewrite (seq_Some _ _ _ _ Hw2). exact Hw3. }
  split; [exact Hat|]. split; [exact Hlow|]. split; [exact Hwin|].
  split. { unfold colors. rewrite HL. destruct (resetCheck w); reflexivity. }
  destruct Hat as (_ & _ & Hl1 & Hr1).
  unfold between_frames, colors in *. cbn [Lights set_Lights puck lScore rScore resetCheck].
  rewrite length_insert, (colors_insert_position _ _ _ _ Hl9).
  repeat split; auto.
  all: try (destruct (left_goal inp); lia).
  all: try (destruct (right_goal inp); lia).
Qed.

(** *** Runs of the loop *)

Lemma between_frames_init : between_frames init.
Proof.
  unfold between_frames, init. cbn [Lights puck lScore rScore].
  repeat split; try lia. eexists; reflexivity.
Qed.

Lemma run_between_frames (inps : list FrameInput) (w : World) :
  between_frames w → ∃ w', run inps w = Some w' ∧ between_frames w'.
Proof.
  revert w. induction inps as [|inp inps IH]; intros w Hw.
  - exists w. split; [reflexivity | exact Hw].
  - destruct (frame_spec inp w Hw) as (w1 & w' & _ & Hf & _ & _ & _ & _ & Hw' & _).
    destruct (IH w' Hw') as (w'' & Hrun & Hw'').
    exists w''. split; [|exact Hw'']. cbn [run]. rewrite Hf. exact Hrun.
Qed.

Lemma run_app (inps1 inps2 : list FrameInput) (w : World) :
  run (inps1 ++ inps2) w = run inps1 w ≫= run inps2.
Proof.
  revert w. induction inps1 as [|inp inps1 IH]; intros w; [reflexivity|].
  cbn [run app]. destruct (frame inp w) as [w'|]; [apply IH | reflexivity].
Qed.

Lemma goals_cons (side : FrameInput → bool) (inp : FrameInput)
      (inps : list FrameInput) :
  goals side (inp :: inps) = ((if side inp then 1 else 0) + goals side inps)%Z.
Proof. unfold goals. cbn [List.filter]. destruct (side inp); cbn [List.length]; lia. Qed.

Lemma goals_nonneg (side : FrameInput → bool) (inps : list FrameInput) :
  (0 ≤ goals side inps)%Z.
Proof. unfold goals. lia. Qed.

(** The two goal tests exclude each other: at most one goal per frame. *)
Lemma left_goal_not_right (inp : FrameInput) :
  left_goal inp = true → right_goal inp = false.
Proof.
  unfold left_goal, right_goal. intros H. apply bool_decide_eq_true_1 in H.
  apply bool_decide_eq_false_2. lra.
Qed.

Lemma left_goal_input_at (px : R) : px >= 17.6 → left_goal (input_at px) = true.
Proof. intros H. apply bool_decide_eq_true_2. exact H. Qed.

Lemma right_goal_input_at (px : R) : px <= -17.6 → right_goal (input_at px) = true.
Proof. intros H. apply bool_decide_eq_true_2. exact H. Qed.

Lemma no_goal_input_at (px : R) :
  -17.6 < px < 17.6 →
  left_goal (input_at px) = false ∧ right_goal (input_at px) = false.
Proof. intros H. split; apply bool_decide_eq_false_2; cbn [input_at in_position x]; lra. Qed.

(** *** Colours of the pips *)

Lemma black_not_yellow : black ≠ yellow.
Proof. unfold black, yellow, splat. intros H. injection H as H _. lra. Qed.

Lemma score_colors_left (n m : Z) :
  (0 ≤ n < 4)%Z →
  <[Z.to_nat (n + 1) := yellow]> (score_colors n m) = score_colors (n + 1) m.
Proof.
  intros Hn.
  assert (n = 0 ∨ n = 1 ∨ n = 2 ∨ n = 3)%Z as [-> | [-> | [-> | ->]]] by lia;
    reflexivity.
Qed.

Lemma score_colors_right (n m : Z) :
  (0 ≤ m < 4)%Z →
  <[Z.to_nat (m + 1 + 4) := yellow]> (score_colors n m) = score_colors n (m + 1).
Proof.
  intros Hm.
  assert (m = 0 ∨ m = 1 ∨ m = 2 ∨ m = 3)%Z as [-> | [-> | [-> | ->]]] by lia;
    reflexivity.
Qed.

Lemma count_pips (n : Z) :
  (0 ≤ n ≤ 4)%Z →
  List.length (filter (λ c, c = yellow) [pip 1 n; pip 2 n; pip 3 n; pip 4 n])
  = Z.to_nat n.
Proof.
  intros Hn. pose proof black_not_yellow as Hby.
  assert (n = 0 ∨ n = 1 ∨ n = 2 ∨ n = 3 ∨ n = 4)%Z as [-> | [-> | [-> | [-> | ->]]]] by lia;
    unfold pip; cbn [bool_decide decide_rel];
    repeat (first [ rewrite filter_cons_True by reflexivity
                  | rewrite filter_cons_False by exact Hby
                  | rewrite filter_nil ]);
    reflexivity.
Qed.

Lemma colors_init : colors init = score_colors 0 0.
Proof. reflexivity. Qed.

(** From a state without pending reset whose lights mirror the counters,
    a run that keeps both counters below 4 adds the goals of each side to
    its counter and keeps the lights in step. *)
Lemma run_scoring (inps : list FrameInput) (w : World) :
  between_frames w →
  resetCheck w = false →
  colors w = score_colors (lScore w) (rScore w) →
  (lScore w + goals left_goal inps < 4)%Z →
  (rScore w + goals right_goal inps < 4)%Z →
  ∃ w', run inps w = Some w' ∧
        between_frames w' ∧
        resetCheck w' = false ∧
        lScore w' = (lScore w + goals left_goal inps)%Z ∧
        rScore w' = (rScore w + goals right_goal inps)%Z ∧
        colors w' = score_colors (lScore w') (rScore w').
Proof.
  revert w. induction inps as [|inp inps IH]; intros w Hw Hrc Hc Hl Hr.
  - exists w. unfold goals. cbn. repeat split; auto; try lia; apply Hw.
  - rewrite goals_cons in Hl, Hr.
    pose proof (goals_nonneg left_goal inps) as Hgl.
    pose proof (goals_nonneg right_goal inps) as Hgr.
    pose proof Hw as (_ & _ & Hl0 & Hr0).
    assert (Hlow : (lScore w < 4 ∧ rScore w < 4)%Z).
    { destruct (left_goal inp), (right_goal inp); lia. }
    destruct (frame_spec inp w Hw)
      as (w1 & w' & _ & Hf & _ & Hlo & _ & Hc1 & Hw' & Hrc' & Hl' & Hr' & Hc').
    destruct (Hlo Hlow) as (Hl1 & Hr1 & Hrc1).
    rewrite Hrc in Hc1. rewrite Hl1, Hr1, Hc1, Hc in *. clear Hlo.
    assert (Hcw' : colors w' = score_colors (lScore w') (rScore w')).
    { rewrite Hc', Hl', Hr'.
      destruct (left_goal inp) eqn:El.
      - rewrite (left_goal_not_right inp El), Z.add_0_r.
        apply score_colors_left. lia.
      - destruct (right_goal inp) eqn:Er.
        + rewrite Z.add_0_r. apply score_colors_right. lia.
        + rewrite !Z.add_0_r. reflexivity. }
    destruct (IH w' Hw') as (w'' & Hrun & Hw'' & Hrc'' & Hl'' & Hr'' & Hc'');
      [congruence | exact Hcw' | lia | lia |].
    exists w''. rewrite !goals_cons. cbn [run]. rewrite Hf.
    repeat split; auto; try lia; apply Hw''.
Qed.

Lemma reset_lights_pips (ls : list Light) (i : nat) :
  (9 ≤ List.length ls)%nat → (1 ≤ i ≤ 8)%nat →
  ∃ l, ls !! i = Some l ∧ reset_lights ls !! i = Some (dark l).
Proof.
  intros Hlen Hi.
  do 9 (destruct ls as [|? ls]; [cbn in Hlen; lia|]).
  destruct i as [|i]; [lia|].
  do 8 (destruct i as [|i]; [eexists; split; reflexivity|]).
  lia.
Qed.

Lemma reset_lights_others (ls : list Light) (i : nat) :
  (9 ≤ List.length ls)%nat → (i < 1 ∨ 8 < i)%nat →
  reset_lights ls !! i = ls !! i.
Proof.
  intros Hlen Hi.
  do 9 (destruct ls as [|? ls]; [cbn in Hlen; lia|]).
  destruct i as [|i]; [reflexivity|].
  do 8 (destruct i as [|i]; [lia|]).
  reflexivity.
Qed.

(** *** The claims about the loop *)

(** C3. In goal detection, a puck whose x is exactly -17.6 scores for the
    right side, is moved to (9.5, 0, -1) and has its velocity reset to
    zero; a puck whose x is exactly 17.6 scores for the left side, is
    moved to (-9.5, 0, -1) and has its velocity reset; at -17.59 and at
    17.59 goal detection changes nothing. *)
Theorem C3_goal_boundaries (w : World) (rb : Engine.RigidBody R) :
  at_goal_detection w →
  Engine.rigidBody (puck w) = Some rb →
  let px := x (Engine.Position (puck w)) in
  (px = -17.6 →
   ∃ w', goal_detection w = Some w' ∧
         rScore w' = (rScore w + 1)%Z ∧ lScore w' = lScore w ∧
         Engine.Position (puck w') = mkVec3 9.5 0 (-1) ∧
         Engine.rigidBody (puck w') = Some (Engine.resetVelocity rb) ∧
         Engine.Velocity (Engine.resetVelocity rb) = splat 0) ∧
  (px = 17.6 →
   ∃ w', goal_detection w = Some w' ∧
         lScore w' = (lScore w + 1)%Z ∧ rScore w' = rScore w ∧
         Engine.Position (puck w') = mkVec3 (-9.5) 0 (-1) ∧
         Engine.rigidBody (puck w') = Some (Engine.resetVelocity rb) ∧
         Engine.Velocity (Engine.resetVelocity rb) = splat 0) ∧
  (px = -17.59 ∨ px = 17.59 → goal_detection w = Some w).
Proof.
  intros Hat Hb px. subst px. repeat split.
  - intros Hx.
    destruct (goal_detection_right w rb Hat Hb) as (l & _ & Hg); [lra|].
    eexists. split; [exact Hg|]. cbn [lScore rScore puck Engine.Position Engine.rigidBody].
    auto.
  - intros Hx.
    destruct (goal_detection_left w rb Hat Hb) as (l & _ & Hg); [lra|].
    eexists. split; [exact Hg|]. cbn [lScore rScore puck Engine.Position Engine.rigidBody].
    auto.
  - intros Hx. apply goal_detection_none. lra.
Qed.

Lemma at_goal_detection_puck_at (px : R) :
  at_goal_detection (world_with_puck_at px).
Proof.
  unfold at_goal_detection, world_with_puck_at, set_puck, init.
  cbn [Lights puck lScore rScore Engine.SetPostion Engine.rigidBody CreateScene_puck].
  repeat split; try lia. eexists; reflexivity.
Qed.

Lemma C3_goal_boundaries_witness :
  (∃ w', goal_detection (world_with_puck_at (-17.6)) = Some w' ∧
         rScore w' = 1%Z ∧ lScore w' = 0%Z) ∧
  goal_detection (world_with_puck_at 17.59) = Some (world_with_puck_at 17.59).
Proof.
  split.
  - destruct (C3_goal_boundaries (world_with_puck_at (-17.6))
                (Engine.mkRigidBody (splat 0) [])
                (at_goal_detection_puck_at _) eq_refl)
      as (H & _ & _).
    destruct (H eq_refl) as (w' & Hg & Hr & Hl & _).
    exists w'. auto.
  - destruct (C3_goal_boundaries (world_with_puck_at 17.59)
                (Engine.mkRigidBody (splat 0) [])
                (at_goal_detection_puck_at _) eq_refl)
      as (_ & _ & H).
    apply H. right. reflexivity.
Defined.

(** C7. With the reset flag set, and a lights vector that has the nine
    slots the loop writes, [checkIsReseting] moves the puck to the centre
    (0, 0, 4), turns lights 1 to 8 black and leaves every other light, the
    counters and the puck's body as they were, prints its line, sleeps one
    second and clears the flag; run again it changes nothing, so the reset
    is consumed once. *)
Theorem C7_reset_consumed_once (w : World) :
  resetCheck w = true →
  (9 ≤ List.length (Lights w))%nat →
  ∃ w', checkIsReseting w = Some w' ∧
        Engine.Position (puck w') = mkVec3 0 0 4 ∧
        Engine.Position (puck w') = Engine.Position CreateScene_puck ∧
        (∀ i : nat, (1 ≤ i ≤ 8)%nat →
           ∃ l, Lights w !! i = Some l ∧ Lights w' !! i = Some (dark l) ∧
                Color (dark l) = black) ∧
        (∀ i : nat, (i < 1 ∨ 8 < i)%nat → Lights w' !! i = Lights w !! i) ∧
        resetCheck w' = false ∧
        lScore w' = lScore w ∧ rScore w' = rScore w ∧
        out w' = out w ++ [Cout (line "RESETING GAME!!!!!"); Sleep 1000] ∧
        checkIsReseting w' = Some w'.
Proof.
  intros Hrc Hlen. rewrite checkIsReseting_pending by assumption.
  eexists. split; [reflexivity|].
  cbn [puck Lights resetCheck lScore rScore out Engine.SetPostion Engine.Position].
  repeat split.
  - intros i Hi. destruct (reset_lights_pips (Lights w) i Hlen Hi) as (l & H1 & H2).
    exists l. auto.
  - intros i Hi. apply reset_lights_others; assumption.
Qed.

Lemma C7_reset_consumed_once_witness :
  ∃ w', checkIsReseting world_reset_pending = Some w' ∧
        Engine.Position (puck w') = mkVec3 0 0 4 ∧
        resetCheck w' = false ∧
        checkIsReseting w' = Some w'.
Proof.
  destruct (C7_reset_consumed_once world_reset_pending)
    as (w' & H1 & H2 & _ & _ & _ & H3 & _ & _ & _ & H4).
  - reflexivity.
  - cbn. lia.
  - exists w'. auto.
Defined.

(** C8. With the reset flag clear, [checkIsReseting] returns the state it
    was given: no position, light, counter or output changes and the flag
    stays clear. *)
Theorem C8_idle_reset_noop (w : World) :
  resetCheck w = false →
  checkIsReseting w = Some w ∧
  ∀ w', checkIsReseting w = Some w' →
        puck w' = puck w ∧ Lights w' = Lights w ∧ resetCheck w' = false.
Proof.
  intros Hrc. pose proof (checkIsReseting_idle w Hrc) as H.
  split; [exact H|]. intros w' Hw'. rewrite H in Hw'. injection Hw' as <-.
  auto.
Qed.

Lemma C8_idle_reset_noop_witness : checkIsReseting init = Some init.
Proof. apply (C8_idle_reset_noop init). reflexivity. Defined.

(** C10. [checkIsReseting] never touches the puck's rigid body: when it
    consumes a reset it moves the puck to the centre and leaves the body,
    its velocity included, as it was.  Goal detection, in contrast, calls
    [resetVelocity] on the body when a goal is made. *)
Theorem C10_reset_keeps_velocity (w : World) :
  (9 ≤ List.length (Lights w))%nat →
  (∃ w', checkIsReseting w = Some w' ∧
         Engine.rigidBody (puck w') = Engine.rigidBody (puck w) ∧
         (resetCheck w = true → Engine.Position (puck w') = mkVec3 0 0 4)) ∧
  (∀ w1 rb,
     at_goal_detection w1 →
     Engine.rigidBody (puck w1) = Some rb →
     x (Engine.Position (puck w1)) <= -17.6 ∨ x (Engine.Position (puck w1)) >= 17.6 →
     ∃ w2, goal_detection w1 = Some w2 ∧
           Engine.rigidBody (puck w2) = Some (Engine.resetVelocity rb) ∧
           Engine.Velocity (Engine.resetVelocity rb) = splat 0).
Proof.
  intros Hlen. split.
  - destruct (resetCheck w) eqn:Hrc.
    + rewrite checkIsReseting_pending by assumption.
      eexists. split; [reflexivity|]. cbn [puck Engine.SetPostion Engine.rigidBody Engine.Position].
      auto.
    + rewrite checkIsReseting_idle by assumption.
      eexists. split; [reflexivity|]. split; [reflexivity | discriminate].
  - intros w1 rb Hat Hb [Hx|Hx].
    + destruct (goal_detection_right w1 rb Hat Hb Hx) as (l & _ & Hg).
      eexists. split; [exact Hg|]. cbn [puck Engine.rigidBody]. auto.
    + destruct (goal_detection_left w1 rb Hat Hb Hx) as (l & _ & Hg).
      eexists. split; [exact Hg|]. cbn [puck Engine.rigidBody]. auto.
Qed.

Lemma C10_reset_keeps_velocity_witness :
  ∃ w', checkIsReseting world_reset_pending = Some w' ∧
        Engine.rigidBody (puck w') = Engine.rigidBody (puck world_reset_pending).
Proof.
  destruct (C10_reset_keeps_velocity world_reset_pending) as [(w' & H1 & H2 & _) _].
  - cbn. lia.
  - exists w'. auto.
Defined.

Lemma scoreCheck_writes (isLeft : bool) (w : World) :
  at_goal_detection w →
  (1 ≤ scoreCheck_index isLeft w ≤ 8)%Z ∧
  (Z.to_nat (scoreCheck_index isLeft w) < List.length (Lights w))%nat ∧
  ∃ w', scoreCheck isLeft w = Some w' ∧
        List.length (Lights w') = List.length (Lights w) ∧
        ∀ j : nat, j ≠ Z.to_nat (scoreCheck_index isLeft w) →
                   Lights w' !! j = Lights w !! j.
Proof.
  intros (Hlen & _ & Hl & Hr).
  assert (Hi : (1 ≤ scoreCheck_index isLeft w ≤ 8)%Z).
  { unfold scoreCheck_index. destruct isLeft; lia. }
  split; [exact Hi|]. split; [lia|].
  destruct isLeft; unfold scoreCheck, scoreCheck_index in *.
  - destruct (set_light_color_Some (lScore w + 1) yellow
                (set_lScore (lScore w + 1) w)) as (l & _ & Hset);
      [lia | cbn [Lights set_lScore]; lia |].
    rewrite int_add_small by lia.
    cbn [mbind option_bind lScore set_lScore] in Hset |- *. rewrite Hset.
    eexists. split; [reflexivity|]. cbn [Lights set_Lights].
    split; [apply length_insert|].
    intros j Hj. apply list_lookup_insert_ne. auto.
  - destruct (set_light_color_Some (rScore w + 1 + 4) yellow
                (set_rScore (rScore w + 1) w)) as (l & _ & Hset);
      [lia | cbn [Lights set_rScore]; lia |].
    rewrite int_add_small by lia.
    cbn [mbind option_bind rScore set_rScore].
    rewrite int_add_small by lia.
    cbn [mbind option_bind rScore set_rScore] in Hset |- *. rewrite Hset.
    eexists. split; [reflexivity|]. cbn [Lights set_Lights].
    split; [apply length_insert|].
    intros j Hj. apply list_lookup_insert_ne. auto.
Qed.

Lemma lightReset_indices_range : Forall (λ i, 1 ≤ i ≤ 8)%Z lightReset_indices.
Proof. repeat constructor; lia. Qed.

(** C9. After any number of frames from the initial state the lights
    vector still has ten elements and the next frame runs without leaving
    it.  In the state in which that frame starts goal detection,
    [scoreCheck] for either side writes at an index between 1 and 8,
    inside the vector, and changes no other element; [lightReset] runs
    over the indices 1 to 8 and changes no element outside them. *)
Theorem C9_light_writes_in_bounds (inps : list FrameInput) (inp : FrameInput) :
  ∃ w w1 w',
    run inps init = Some w ∧
    before_goal_detection inp w = Some w1 ∧
    frame inp w = Some w' ∧
    List.length (Lights w) = 10%nat ∧
    List.length (Lights w1) = 10%nat ∧
    List.length (Lights w') = 10%nat ∧
    (∀ isLeft,
       (1 ≤ scoreCheck_index isLeft w1 ≤ 8)%Z ∧
       (Z.to_nat (scoreCheck_index isLeft w1) < List.length (Lights w1))%nat ∧
       ∃ w2, scoreCheck isLeft w1 = Some w2 ∧
             List.length (Lights w2) = List.length (Lights w1) ∧
             ∀ j : nat, j ≠ Z.to_nat (scoreCheck_index isLeft w1) →
                        Lights w2 !! j = Lights w1 !! j) ∧
    Forall (λ i, 1 ≤ i ≤ 8)%Z lightReset_indices ∧
    (∃ w3, lightReset w = Some w3 ∧
           List.length (Lights w3) = 10%nat ∧
           ∀ j : nat, (j < 1 ∨ 8 < j)%nat → Lights w3 !! j = Lights w !! j).
Proof.
  destruct (run_between_frames inps init between_frames_init) as (w & Hrun & Hw).
  destruct (frame_spec inp w Hw)
    as (w1 & w' & Hw1 & Hf & Hat & _ & _ & _ & Hw' & _).
  exists w, w1, w'.
  split; [exact Hrun|]. split; [exact Hw1|]. split; [exact Hf|].
  split; [apply Hw|]. split; [apply Hat|]. split; [apply Hw'|].
  split; [intros isLeft; apply scoreCheck_writes; exact Hat|].
  split; [exact lightReset_indices_range|].
  destruct Hw as (Hlen & _).
  rewrite lightReset_Some by lia.
  eexists. split; [reflexivity|]. cbn [Lights set_Lights].
  split; [rewrite length_reset_lights; exact Hlen|].
  intros j Hj. apply reset_lights_others; [lia | exact Hj].
Qed.

(** C5. After a run from the initial state with N left goals and M
    right goals, N and M below 4 (so that no win reset occurs), the
    counters are N and M, no reset is pending, exactly N of the lights 1 to
    4 and exactly M of the lights 5 to 8 are yellow, the other lights among
    1 to 8 are black, and lights 0 and 9 have the colours [CreateScene]
    gave them. *)
Theorem C5_lights_mirror_score (inps : list FrameInput) :
  (goals left_goal inps < 4)%Z →
  (goals right_goal inps < 4)%Z →
  ∃ w, run inps init = Some w ∧
       lScore w = goals left_goal inps ∧
       rScore w = goals right_goal inps ∧
       resetCheck w = false ∧
       lit_count 1 4 w = Z.to_nat (goals left_goal inps) ∧
       lit_count 5 4 w = Z.to_nat (goals right_goal inps) ∧
       colors w = score_colors (goals left_goal inps) (goals right_goal inps) ∧
       (∀ c, c ∈ take 8 (drop 1 (colors w)) → c = yellow ∨ c = black) ∧
       colors w !! 0%nat = colors init !! 0%nat ∧
       colors w !! 9%nat = colors init !! 9%nat.
Proof.
  set (N := goals left_goal inps). set (M := goals right_goal inps).
  intros HN HM.
  destruct (run_scoring inps init between_frames_init eq_refl colors_init)
    as (w & Hrun & _ & Hrc & Hl & Hr & Hc); [exact HN | exact HM |].
  cbn [init lScore rScore] in Hl, Hr. rewrite Z.add_0_l in Hl, Hr.
  fold N in Hl. fold M in Hr. rewrite Hl, Hr in Hc.
  pose proof (goals_nonneg left_goal inps) as HN0. fold N in HN0.
  pose proof (goals_nonneg right_goal inps) as HM0. fold M in HM0.
  exists w. split; [exact Hrun|]. split; [exact Hl|]. split; [exact Hr|].
  split; [exact Hrc|]. unfold lit_count. rewrite Hc.
  split; [apply (count_pips N); lia|]. split; [apply (count_pips M); lia|].
  split; [reflexivity|]. split; [|split; reflexivity].
  intros c Hin.
  change (take 8 (drop 1 (score_colors N M)))
    with [pip 1 N; pip 2 N; pip 3 N; pip 4 N; pip 1 M; pip 2 M; pip 3 M; pip 4 M]
    in Hin.
  repeat (apply elem_of_cons in Hin as [-> | Hin];
          [unfold pip; case_bool_decide; auto|]).
  apply elem_of_nil in Hin. contradiction.
Qed.

Lemma goals_three_frames :
  goals left_goal three_frames = 1%Z ∧ goals right_goal three_frames = 1%Z.
Proof.
  unfold three_frames. rewrite !goals_cons.
  rewrite (left_goal_input_at 18) by lra.
  rewrite (left_goal_not_right _ (left_goal_input_at 18 ltac:(lra))).
  rewrite (right_goal_input_at (-18)) by lra.
  assert (Hl : left_goal (input_at (-18)) = false).
  { apply bool_decide_eq_false_2. cbn [input_at in_position x]. lra. }
  rewrite Hl.
  destruct (no_goal_input_at 0 ltac:(lra)) as [-> ->].
  split; reflexivity.
Qed.

Lemma C5_lights_mirror_score_witness :
  ∃ w, run three_frames init = Some w ∧
       lit_count 1 4 w = 1%nat ∧ lit_count 5 4 w = 1%nat.
Proof.
  destruct goals_three_frames as [HN HM].
  destruct (C5_lights_mirror_score three_frames)
    as (w & Hrun & _ & _ & _ & Hl & Hr & _).
  - rewrite HN. lia.
  - rewrite HM. lia.
  - exists w. rewrite HN in Hl. rewrite HM in Hr. auto.
Defined.

Lemma goals_three_left_goals :
  goals left_goal three_left_goals = 3%Z ∧ goals right_goal three_left_goals = 0%Z.
Proof.
  unfold three_left_goals. rewrite !goals_cons.
  rewrite (left_goal_input_at 18) by lra.
  rewrite (left_goal_not_right _ (left_goal_input_at 18 ltac:(lra))).
  split; reflexivity.
Qed.

(** Three left goals bring the left counter to 3; the fourth brings it to
    4, and the frame in which that happens ends with the counters at 4
    and 0 and the flag clear. *)
Lemma fourth_left_goal :
  ∃ w w', run three_left_goals init = Some w ∧
          between_frames w ∧
          lScore w = 3%Z ∧ rScore w = 0%Z ∧
          frame (input_at 18) w = Some w' ∧
          between_frames w' ∧
          lScore w' = 4%Z ∧ rScore w' = 0%Z ∧ resetCheck w' = false.
Proof.
  destruct goals_three_left_goals as [HN HM].
  destruct (run_scoring three_left_goals init between_frames_init eq_refl colors_init)
    as (w & Hrun & Hw & Hrc & Hl & Hr & _).
  { rewrite HN. cbn [init lScore]. lia. }
  { rewrite HM. cbn [init rScore]. lia. }
  rewrite HN in Hl. rewrite HM in Hr. cbn [init lScore rScore] in Hl, Hr.
  destruct (frame_spec (input_at 18) w Hw)
    as (w1 & w' & _ & Hf & _ & Hlo & _ & _ & Hw' & Hrc' & Hl' & Hr' & _).
  destruct Hlo as (Hl1 & Hr1 & Hrc1); [lia|].
  rewrite (left_goal_input_at 18) in Hl' by lra.
  rewrite (left_goal_not_right _ (left_goal_input_at 18 ltac:(lra))) in Hr'.
  exists w, w'. repeat split; try apply Hw; try apply Hw'; auto; try lia.
  congruence.
Qed.

(** C4, as stated, fails: in the frame in which the left counter goes
    from 3 to 4 nothing is reset.  That frame ends with the counters at 4
    and 0 and [resetCheck] still false. *)
Lemma C4_reset_not_in_same_frame :
  ∃ w w', run three_left_goals init = Some w ∧
          lScore w = 3%Z ∧
          frame (input_at 18) w = Some w' ∧
          lScore w' = 4%Z ∧ rScore w' = 0%Z ∧ resetCheck w' = false ∧
          ¬ (lScore w' = 0%Z ∧ rScore w' = 0%Z ∧ resetCheck w' = true).
Proof.
  destruct fourth_left_goal as (w & w' & Hrun & _ & Hl & _ & Hf & _ & Hl' & Hr' & Hrc').
  exists w, w'. repeat split; auto.
  intros (H0 & _). lia.
Qed.

(** C4, amended.  After any number of frames from the initial state both
    counters are between 0 and 4, and in the next frame:
    - if both counters are below 4 when the frame starts, neither
      decreases, at most one of them grows, by one, and the frame ends
      with [resetCheck] false, also when a counter has just become 4;
    - if a counter is 4 when the frame starts, [scoreCheckReset] sets
      both counters to 0 and [resetCheck] to true before goal detection,
      and the frame ends with [resetCheck] true.
    [scoreCheckReset] itself, on any state with a counter at 4 or more,
    sets both counters to 0 and the flag to true in one call. *)
Theorem C4_scores_reset_next_frame (inps : list FrameInput) (inp : FrameInput) :
  ∃ w w1 w',
    run inps init = Some w ∧
    before_goal_detection inp w = Some w1 ∧
    frame inp w = Some w' ∧
    (0 ≤ lScore w ≤ 4)%Z ∧ (0 ≤ rScore w ≤ 4)%Z ∧
    ((lScore w < 4 ∧ rScore w < 4)%Z →
       (lScore w ≤ lScore w' ≤ lScore w + 1)%Z ∧
       (rScore w ≤ rScore w' ≤ rScore w + 1)%Z ∧
       (lScore w' = lScore w ∨ rScore w' = rScore w) ∧
       resetCheck w' = false) ∧
    ((lScore w = 4 ∨ rScore w = 4)%Z →
       lScore w1 = 0%Z ∧ rScore w1 = 0%Z ∧ resetCheck w1 = true ∧
       (0 ≤ lScore w' ≤ 1)%Z ∧ (0 ≤ rScore w' ≤ 1)%Z ∧
       resetCheck w' = true) ∧
    (∀ w0, (lScore w0 >= 4 ∨ rScore w0 >= 4)%Z →
       ∃ w0', scoreCheckReset w0 = Some w0' ∧
              lScore w0' = 0%Z ∧ rScore w0' = 0%Z ∧ resetCheck w0' = true).
Proof.
  destruct (run_between_frames inps init between_frames_init) as (w & Hrun & Hw).
  destruct (frame_spec inp w Hw)
    as (w1 & w' & Hw1 & Hf & Hat & Hlo & Hhi & _ & Hw' & Hrc' & Hl' & Hr' & _).
  exists w, w1, w'.
  split; [exact Hrun|]. split; [exact Hw1|]. split; [exact Hf|].
  split; [apply Hw|]. split; [apply Hw|].
  split; [|split].
  - intros Hlow. destruct (Hlo Hlow) as (Hl1 & Hr1 & Hrc1).
    rewrite Hl1 in Hl'. rewrite Hr1 in Hr'.
    destruct (left_goal inp) eqn:El.
    + rewrite (left_goal_not_right inp El) in Hr'.
      repeat split; try lia; try congruence; right; lia.
    + destruct (right_goal inp);
        repeat split; try lia; try congruence; left; lia.
  - intros Hwin. destruct Hhi as (Hl1 & Hr1 & Hrc1); [lia|].
    rewrite Hl1 in Hl'. rewrite Hr1 in Hr'.
    repeat split; auto; try congruence;
      destruct (left_goal inp), (right_goal inp); lia.
  - intros w0 H0.
    destruct (scoreCheckReset_win w0) as (w0' & Hs & H1 & H2 & H3 & _); [lia|].
    exists w0'. auto.
Qed.

Lemma C4_scores_reset_next_frame_witness :
  ∃ w w1,
    run (three_left_goals ++ [input_at 18]) init = Some w ∧
    lScore w = 4%Z ∧
    before_goal_detection (input_at 0) w = Some w1 ∧
    lScore w1 = 0%Z ∧ rScore w1 = 0%Z ∧ resetCheck w1 = true.
Proof.
  destruct fourth_left_goal as (v & v' & Hrun & _ & _ & _ & Hf & _ & Hl' & _).
  destruct (C4_scores_reset_next_frame (three_left_goals ++ [input_at 18]) (input_at 0))
    as (w & w1 & w' & Hw & Hw1 & _ & _ & _ & _ & Hwin & _).
  assert (Hv : w = v').
  { rewrite run_app, Hrun in Hw. cbn [mbind option_bind run] in Hw.
    rewrite Hf in Hw. cbn [mbind option_bind] in Hw. congruence. }
  subst w. destruct Hwin as (H1 & H2 & H3 & _); [left; exact Hl'|].
  exists v', w1. auto 10.
Defined.

Lemma C9_light_writes_in_bounds_witness :
  ∃ w', frame (input_at 0) init = Some w' ∧ List.length (Lights w') = 10%nat.
Proof.
  destruct (C9_light_writes_in_bounds [] (input_at 0))
    as (w & w1 & w' & Hrun & _ & Hf & _ & _ & Hlen & _).
  injection Hrun as <-. exists w'. auto.
Defined.

End GameFacts.
(** ** More facts about the bounce component *)

Module BounceMore.
Import Glm Engine Single Exact Bounce BounceEvents Float32Facts BounceFacts.

(** *** Callback sequences *)

(** X1. A component that has not been woken, fresh from the constructor or
    from [FromJson] (whatever the blob), takes any sequence of callbacks
    without failing and without changing itself or any object, even when it
    sits on the puck and whatever the trigger references are: each callback
    only prints its line. *)
Theorem unwoken_ignores_callbacks (es : list callback) (os : list GameObject)
        (i : ref) (blob : json) (r0 p0 : vec3) (out : list string) :
  ∃ w', deliver_all es (mkWorld os i (FromJson blob r0 p0) out) = Some w' ∧
        comp w' = FromJson blob r0 p0 ∧
        objects w' = os ∧
        List.length (stdout w') = (List.length out + List.length es)%nat.
Proof.
  revert out. induction es as [|e es IH]; intros out.
  - eexists. split; [reflexivity|]. cbn. auto with lia.
  - assert (He : ∃ s, deliver e (mkWorld os i (FromJson blob r0 p0) out)
                      = Some (mkWorld os i (FromJson blob r0 p0) (out ++ [s])))
      by (destruct e; eexists; reflexivity).
    destruct He as (s & He). destruct (IH (out ++ [s])) as (w' & Hw' & Hc & Ho & Hl).
    exists w'. cbn [deliver_all]. rewrite He. split; [exact Hw'|].
    rewrite length_app in Hl. cbn in Hl |- *. auto with lia.
Qed.

Lemma set_rigidBody_same (o : GameObject) (body : RigidBody) :
  rigidBody o = Some body → set_rigidBody body o = o.
Proof. destruct o. cbn. intros ->. reflexivity. Qed.

Lemma resolved_after_bounce (w : World) (o : GameObject) (body body' : RigidBody)
      (c : BounceBehaviour) (out : list string) :
  resolved w o body →
  gameObj c = Some (self w) → rigidOBJ c = Some (self w) →
  resolved (mkWorld (<[self w := set_rigidBody body' o]> (objects w)) (self w) c out)
           (set_rigidBody body' o) body'.
Proof.
  intros (_ & _ & Ho & Hn & _) Hg Hr. unfold resolved. cbn [comp self objects].
  repeat split; auto.
  apply list_lookup_insert_eq. eapply lookup_lt_Some; exact Ho.
Qed.

(** X2. On a resolved puck any sequence of callbacks runs to completion,
    provided the triggers it enters exist.  The component stays resolved on
    the same object, of which only the body can change; every other object
    is left alone; [isInCollision] is true exactly when the last
    enter-or-leave callback was an enter; every callback prints one line. *)
Theorem callbacks_keep_resolved (es : list callback) (w : World)
        (o : GameObject) (body : RigidBody) :
  resolved w o body →
  Forall (λ t, t < List.length (objects w))%nat (entered_triggers es) →
  ∃ w' body',
    deliver_all es w = Some w' ∧
    resolved w' (set_rigidBody body' o) body' ∧
    self w' = self w ∧
    (∀ j : nat, j ≠ self w → objects w' !! j = objects w !! j) ∧
    isInCollision (comp w') =
      foldl (λ b e, in_collision_after e b) (isInCollision (comp w)) es ∧
    List.length (stdout w') = (List.length (stdout w) + List.length es)%nat.
Proof.
  revert w o body. induction es as [|e es IH]; intros w o body Hres Htr.
  - exists w, body. split; [reflexivity|].
    rewrite set_rigidBody_same by apply Hres.
    cbn. auto 10 with lia.
  - assert (Hstep : ∃ w1 body1,
               deliver e w = Some w1 ∧
               resolved w1 (set_rigidBody body1 o) body1 ∧
               self w1 = self w ∧
               List.length (objects w1) = List.length (objects w) ∧
               (∀ j : nat, j ≠ self w → objects w1 !! j = objects w !! j) ∧
               isInCollision (comp w1) = in_collision_after e (isInCollision (comp w)) ∧
               List.length (stdout w1) = S (List.length (stdout w))).
    { pose proof Hres as (Hg & Hr & Ho & Hn & Hb).
      destruct e as [t|t|b|b]; cbn [deliver in_collision_after].
      - cbn [entered_triggers] in Htr. apply Forall_cons in Htr as [Ht _].
        destruct (lookup_lt_is_Some_2 _ _ Ht) as [edge He].
        rewrite (OnEnteredTrigger_puck w t o edge body Hres He).
        eexists _, _. split; [reflexivity|].
        split; [apply (resolved_after_bounce w o body); auto|].
        cbn [self objects comp stdout isInCollision].
        rewrite length_insert, length_app. cbn.
        repeat split; auto with lia.
        intros j Hj. apply list_lookup_insert_ne. auto.
      - exists (printf (line "OnLeavingTrigger")
                  (set_comp (mkBounce (gameObj (comp w)) (rigidOBJ (comp w)) false
                               (reflectionVelocity (comp w)) (repelVelocity (comp w))) w)),
               body.
        split; [reflexivity|]. rewrite set_rigidBody_same by exact Hb.
        unfold resolved. cbn. rewrite length_app. cbn. auto 10 with lia.
      - exists (printf (line "OnTriggerVolumeEntered") w), body.
        split; [reflexivity|]. rewrite set_rigidBody_same by exact Hb.
        unfold resolved. cbn. rewrite length_app. cbn. auto 10 with lia.
      - exists (printf (line "OnTriggerVolumeLeaving") w), body.
        split; [reflexivity|]. rewrite set_rigidBody_same by exact Hb.
        unfold resolved. cbn. rewrite length_app. cbn. auto 10 with lia. }
    destruct Hstep as (w1 & body1 & H1 & Hres1 & Hs1 & Hlen1 & Hoth1 & Hcol1 & Hout1).
    destruct (IH w1 (set_rigidBody body1 o) body1 Hres1) as
        (w' & body' & H' & Hres' & Hs' & Hoth' & Hcol' & Hout').
    { rewrite Hlen1. destruct e; cbn [entered_triggers] in Htr; auto.
      apply Forall_cons in Htr as [_ Htr]. exact Htr. }
    exists w', body'. cbn [deliver_all]. rewrite H1. split; [exact H'|].
    split; [exact Hres'|]. split; [congruence|].
    split; [intros j Hj; rewrite Hoth' by congruence; apply Hoth1; exact Hj|].
    cbn [foldl]. rewrite Hcol', Hcol1, Hout', Hout1. cbn. auto with lia.
Qed.

Lemma callbacks_keep_resolved_witness :
  ∃ w', deliver_all [EnteredTrigger 1; TriggerVolumeEntered 0; LeavingTrigger 1] world0
        = Some w' ∧
        isInCollision (comp w') = false ∧
        objects w' !! 1%nat = Some edge0.
Proof.
  destruct (callbacks_keep_resolved
              [EnteredTrigger 1; TriggerVolumeEntered 0; LeavingTrigger 1]
              world0 puck0 puck_body0 resolved_world0)
    as (w' & b' & H1 & _ & _ & Hoth & Hcol & _).
  - repeat constructor.
  - exists w'. split; [exact H1|]. split; [exact Hcol|].
    rewrite Hoth by discriminate. reflexivity.
Defined.

(** X3. [Awake] is idempotent: waking a component that has been woken
    changes nothing, and waking never touches the objects or the output. *)
Theorem Awake_idempotent (w w1 : World) :
  Awake w = Some w1 →
  Awake w1 = Some w1 ∧ objects w1 = objects w ∧ stdout w1 = stdout w ∧
  gameObj (comp w1) = Some (self w).
Proof.
  unfold Awake. intros H.
  destruct (objects w !! self w) as [g|] eqn:Hg; [|discriminate].
  cbn [mbind option_bind] in H.
  destruct (String.eqb (Name g) "Puck") eqn:Hn; injection H as <-;
    cbn [set_comp objects self comp gameObj rigidOBJ isInCollision
         reflectionVelocity repelVelocity stdout];
    rewrite Hg; cbn [mbind option_bind]; rewrite Hn; auto.
Qed.

Lemma Awake_idempotent_witness :
  Awake world0 = Some world0.
Proof.
  apply (Awake_idempotent world0 world0). reflexivity.
Defined.

(** X20. Saving and reloading forgets the component's state and [Awake]
    brings the pointers back: the component read back from what [ToJson]
    wrote is a fresh one, and waking it on the resolved puck it came from
    resolves it again on the same object and body, with the collision flag
    cleared and no object touched. *)
Theorem reload_then_awake (w : World) (o : GameObject) (body : RigidBody)
        (r0 p0 : vec3) :
  resolved w o body →
  ∃ w', Awake (set_comp (FromJson (ToJson (comp w)) r0 p0) w) = Some w' ∧
        resolved w' o body ∧
        isInCollision (comp w') = false ∧
        objects w' = objects w ∧ stdout w' = stdout w.
Proof.
  intros (_ & _ & Ho & Hn & Hb).
  destruct (Awake_resolved (objects w) (self w) r0 p0 (stdout w) o body Ho Hn Hb)
    as (w' & Hw' & Hres).
  exists w'. split; [exact Hw'|]. split; [exact Hres|].
  unfold Awake in Hw'. cbn [objects self comp] in Hw'.
  rewrite Ho in Hw'. cbn [mbind option_bind] in Hw'.
  rewrite Hn, String.eqb_refl in Hw'. injection Hw' as <-.
  cbn. auto.
Qed.

Lemma reload_then_awake_witness :
  ∃ w', Awake world_reloaded = Some w' ∧ resolved w' puck0 puck_body0.
Proof.
  destruct (reload_then_awake world0 puck0 puck_body0 (splat (num 0)) (splat (num 0))
              resolved_world0) as (w' & H1 & H2 & _).
  exists w'. split; [exact H1 | exact H2].
Defined.

(** *** The play plane and NaN *)

Lemma zero_or_nan_num_0 : zero_or_nan (num 0).
Proof. exact I. Qed.

(** X4. A bounce never gives the puck a z velocity: whatever [float]
    values the velocity of the body and the rotation of the edge hold, the
    z component of the velocity after the bounce and of both cached
    vectors is a zero or NaN, never another number.  It is NaN where the
    speed or the normalisation is not a number, as for a puck at rest. *)
Theorem bounce_stays_in_plane (w : World) (trigger : ref)
        (o edge : GameObject) (body : RigidBody) :
  resolved w o body →
  objects w !! trigger = Some edge →
  ∃ w' body',
    OnEnteredTrigger trigger w = Some w' ∧
    body_at (self w) w' = Some body' ∧
    zero_or_nan (z (Velocity body')) ∧
    zero_or_nan (z (reflectionVelocity (comp w'))) ∧
    zero_or_nan (z (repelVelocity (comp w'))).
Proof.
  intros Hres He.
  rewrite (OnEnteredTrigger_puck w trigger o edge body Hres He).
  destruct Hres as (_ & _ & Ho & _ & _).
  eexists _, _. split; [reflexivity|].
  split; [apply body_at_puck; exact Ho|].
  cbn [Velocity ApplyImpulse resetVelocity comp reflectionVelocity repelVelocity].
  set (refVelo := bounce_impulse _ _).
  assert (Hz : zero_or_nan (z refVelo)).
  { unfold refVelo, bounce_impulse, reflected, scale, set_z. cbn [z].
    apply smul_zero_or_nan, zero_or_nan_num_0. }
  split; [|split; [exact Hz|]].
  - unfold add, splat. cbn [z].
    apply sadd_zero_or_nan; [apply zero_or_nan_num_0 | exact Hz].
  - unfold repel, normalize, scale. cbn [z].
    apply smul_zero_or_nan, smul_zero_or_nan, Hz.
Qed.

Lemma bounce_stays_in_plane_witness :
  ∃ w' body',
    OnEnteredTrigger 1 world0 = Some w' ∧
    body_at 0 w' = Some body' ∧
    zero_or_nan (z (Velocity body')).
Proof.
  destruct (bounce_stays_in_plane world0 1 puck0 edge0 puck_body0
              resolved_world0 eq_refl) as (w' & b' & H1 & H2 & H3 & _).
  exists w', b'. auto.
Defined.

Lemma reflect_nan (n : vec3) : reflect (splat S754_nan) n = splat S754_nan.
Proof. reflexivity. Qed.

(** Normalising a vector of zeros divides by zero. *)
Lemma normalize_zero (vx vy : float32) :
  is_zero vx → is_zero vy →
  normalize (mkVec3 vx vy (num 0)) = splat S754_nan.
Proof.
  intros Hx Hy. unfold normalize, inversesqrt, dot. cbn [x y z].
  rewrite (smul_zero_self vx Hx), (smul_zero_self vy Hy).
  change (sdiv (num 1) (ssqrt (sadd (sadd (S754_zero false) (S754_zero false))
                                    (smul (num 0) (num 0)))))
    with (S754_infinity false).
  unfold scale, splat. cbn [x y z].
  rewrite (smul_zero_inf vx false Hx), (smul_zero_inf vy false Hy). reflexivity.
Qed.

Lemma length_zero (vx vy : float32) :
  is_zero vx → is_zero vy → length (mkVec3 vx vy (num 0)) = num 0.
Proof.
  intros Hx Hy. unfold length, dot. cbn [x y z].
  rewrite (smul_zero_self vx Hx), (smul_zero_self vy Hy). reflexivity.
Qed.

(** The bounce of a flattened velocity whose in-plane components are
    zeros, off any edge. *)
Lemma bounce_impulse_at_rest (v n : vec3) :
  is_zero (x v) → is_zero (y v) → z v = num 0 →
  bounce_impulse v n = mkVec3 S754_nan S754_nan (num 0).
Proof.
  destruct v as [vx vy vz]. cbn [x y z]. intros Hx Hy ->.
  unfold bounce_impulse, reflected.
  rewrite (normalize_zero vx vy Hx Hy), (length_zero vx vy Hx Hy), reflect_nan.
  reflexivity.
Qed.

(** The bounce of a flattened velocity with a NaN in the plane. *)
Lemma bounce_impulse_nan (v n : vec3) :
  x v = S754_nan ∨ y v = S754_nan →
  bounce_impulse v n = splat S754_nan.
Proof.
  intros Hv.
  assert (Hd : dot v v = S754_nan).
  { unfold dot. destruct Hv as [-> | ->].
    - reflexivity.
    - rewrite smul_nan_l, sadd_nan_r. reflexivity. }
  unfold bounce_impulse, length. rewrite Hd, ssqrt_nan, smul_nan_l.
  unfold scale, splat. rewrite !smul_nan_r. reflexivity.
Qed.

Lemma repel_nan (v : vec3) :
  x v = S754_nan ∨ y v = S754_nan → repel v = splat S754_nan.
Proof.
  intros Hv.
  assert (Hd : dot v v = S754_nan).
  { unfold dot. destruct Hv as [-> | ->].
    - reflexivity.
    - rewrite smul_nan_l, sadd_nan_r. reflexivity. }
  unfold repel, normalize, inversesqrt. rewrite Hd, ssqrt_nan, sdiv_nan_r.
  unfold scale, splat. cbn [x y z]. rewrite !smul_nan_r. reflexivity.
Qed.

(** X23. A puck that enters an edge's trigger with no velocity in the
    play plane, at rest or moving along z only, comes out with a velocity
    that is not a number: normalising the zero vector divides zero by
    zero, so the impulse applied is (NaN, NaN, 0), whatever the edge, and
    [repelVelocity] is NaN throughout. *)
Theorem bounce_at_rest_is_nan (w : World) (trigger : ref)
        (o edge : GameObject) (body : RigidBody) :
  resolved w o body →
  objects w !! trigger = Some edge →
  is_zero (x (Velocity body)) → is_zero (y (Velocity body)) →
  let impulse := mkVec3 S754_nan S754_nan (num 0) : vec3 in
  ∃ w' body',
    OnEnteredTrigger trigger w = Some w' ∧
    body_at (self w) w' = Some body' ∧
    Calls body' = Calls body ++ [CallResetVelocity; CallApplyImpulse impulse] ∧
    Velocity body' = impulse ∧
    reflectionVelocity (comp w') = impulse ∧
    repelVelocity (comp w') = splat S754_nan.
Proof.
  intros Hres He Hx Hy impulse.
  rewrite (OnEnteredTrigger_puck w trigger o edge body Hres He).
  destruct Hres as (_ & _ & Ho & _ & _).
  rewrite (bounce_impulse_at_rest (flat_velocity body) (edge_normal (Rotation edge))
             Hx Hy) by reflexivity.
  eexists _, _. split; [reflexivity|].
  split; [apply body_at_puck; exact Ho|].
  cbn [Velocity Calls ApplyImpulse resetVelocity comp reflectionVelocity
       repelVelocity].
  rewrite <- app_assoc. split; [reflexivity|]. split; [reflexivity|].
  split; [reflexivity|]. apply repel_nan. left. reflexivity.
Qed.

(** A puck moving at (0, 0, 7), straight out of the play plane. *)
Lemma bounce_at_rest_is_nan_witness :
  ∃ w' body',
    OnEnteredTrigger 1 (scene_with (mkVec3 (num 0) (num 0) (num 7))) = Some w' ∧
    body_at 0 w' = Some body' ∧
    Velocity body' = mkVec3 S754_nan S754_nan (num 0).
Proof.
  destruct (resolved_scene_with (mkVec3 (num 0) (num 0) (num 7))) as [o Hres].
  destruct (bounce_at_rest_is_nan _ 1 o edge0 _ Hres eq_refl I I)
    as (w' & b' & H1 & H2 & _ & H4 & _).
  exists w', b'. auto.
Defined.

(** One more bounce of a velocity with a NaN in the plane. *)
Lemma bounce_of_nan (w : World) (trigger : ref)
      (o edge : GameObject) (body : RigidBody) :
  resolved w o body →
  objects w !! trigger = Some edge →
  x (Velocity body) = S754_nan ∨ y (Velocity body) = S754_nan →
  ∃ w' body',
    OnEnteredTrigger trigger w = Some w' ∧
    resolved w' (set_rigidBody body' o) body' ∧
    objects w' !! trigger = Some (if decide (trigger = self w)
                                  then set_rigidBody body' o else edge) ∧
    List.length (objects w') = List.length (objects w) ∧
    self w' = self w ∧
    Velocity body' = splat S754_nan ∧
    reflectionVelocity (comp w') = splat S754_nan ∧
    repelVelocity (comp w') = splat S754_nan.
Proof.
  intros Hres He Hv.
  rewrite (OnEnteredTrigger_puck w trigger o edge body Hres He).
  rewrite (bounce_impulse_nan (flat_velocity body) _ Hv).
  eexists _, _. split; [reflexivity|].
  split; [apply (resolved_after_bounce w o body); auto|].
  cbn [objects self comp Velocity ApplyImpulse resetVelocity
       reflectionVelocity repelVelocity].
  split.
  { destruct (decide (trigger = self w)) as [->|Hne].
    - apply list_lookup_insert_eq. eapply lookup_lt_Some; exact He.
    - rewrite list_lookup_insert_ne by auto. exact He. }
  split; [apply length_insert|]. split; [reflexivity|].
  split; [reflexivity|]. split; [reflexivity|].
  apply repel_nan. left. reflexivity.
Qed.

(** X24. NaN stays.  Once the velocity of the puck holds a NaN in the
    play plane, every bounce, off whatever edges, leaves the velocity and
    both cached vectors NaN in all three components: the component never
    brings the puck back to a number. *)
Theorem nan_velocity_stays_nan (ts : list ref) (t : ref) (w : World)
        (o : GameObject) (body : RigidBody) :
  resolved w o body →
  Forall (λ t, t < List.length (objects w))%nat (t :: ts) →
  x (Velocity body) = S754_nan ∨ y (Velocity body) = S754_nan →
  ∃ w' body',
    deliver_all (EnteredTrigger <$> t :: ts) w = Some w' ∧
    body_at (self w) w' = Some body' ∧
    Velocity body' = splat S754_nan ∧
    reflectionVelocity (comp w') = splat S754_nan ∧
    repelVelocity (comp w') = splat S754_nan.
Proof.
  revert t w o body. induction ts as [|t' ts IH]; intros t w o body Hres Hts Hv.
  - apply Forall_cons in Hts as [Ht _].
    destruct (lookup_lt_is_Some_2 _ _ Ht) as [edge He].
    destruct (bounce_of_nan w t o edge body Hres He Hv)
      as (w' & b' & H1 & Hres' & _ & _ & Hs & Hvel & Hrefl & Hrep).
    exists w', b'. cbn [fmap list_fmap deliver_all deliver].
    rewrite H1. cbn [mbind option_bind]. split; [reflexivity|].
    split; [|auto].
    destruct Hres' as (_ & _ & Ho' & _ & Hb'). unfold body_at.
    rewrite <- Hs, Ho'. exact Hb'.
  - apply Forall_cons in Hts as [Ht Hts].
    destruct (lookup_lt_is_Some_2 _ _ Ht) as [edge He].
    destruct (bounce_of_nan w t o edge body Hres He Hv)
      as (w1 & b1 & H1 & Hres1 & _ & Hlen & Hs & Hvel & _ & _).
    destruct (IH t' w1 _ b1 Hres1) as (w' & b' & H' & Hb' & Hrest).
    + rewrite Hlen. exact Hts.
    + left. rewrite Hvel. reflexivity.
    + exists w', b'. cbn [fmap list_fmap deliver_all deliver] in H' |- *.
      rewrite H1. cbn [mbind option_bind]. split; [exact H'|].
      split; [rewrite <- Hs; exact Hb' | exact Hrest].
Qed.

(** The velocity a bounce at rest leaves, (NaN, NaN, 0), through two
    more bounces. *)
Lemma nan_velocity_stays_nan_witness :
  ∃ w' body',
    deliver_all [EnteredTrigger 1; EnteredTrigger 1]
                (scene_with (mkVec3 S754_nan S754_nan (num 0))) = Some w' ∧
    body_at 0 w' = Some body' ∧
    Velocity body' = splat S754_nan.
Proof.
  destruct (resolved_scene_with (mkVec3 S754_nan S754_nan (num 0))) as [o Hres].
  destruct (nan_velocity_stays_nan [1%nat] 1%nat _ o _ Hres)
    as (w' & b' & H1 & H2 & H3 & _).
  - repeat constructor.
  - left. reflexivity.
  - exists w', b'. auto.
Defined.

(** *** The normal of an edge *)

(** X9. An edge turned by the angle [a] about the z axis, as all edges of
    the scene are, has the inward normal [(- sin a, cos a, 0)]: the forward
    vector turned by the edge's own rotation, of length 1, in exact
    arithmetic.  So every such edge meets the conditions the half-speed
    relation puts on the edge. *)
Theorem edge_normal_about_z (a : R) :
  let q := quat_about_z (cos (a / 2)) (sin (a / 2)) in
  edge_normal q = mkVec3 (- sin a) (cos a) 0 ∧
  edge_normal q = qrot q forwVec ∧
  length (edge_normal q) = 1.
Proof.
  intros q. subst q.
  pose proof (sin2_cos2 (a / 2)) as Hsc. unfold Rsqr in Hsc.
  set (c := cos (a / 2)) in *. set (s := sin (a / 2)) in *.
  assert (Hsin : sin a = 2 * s * c).
  { replace a with (2 * (a / 2)) at 1 by field. apply sin_2a. }
  assert (Hcos : cos a = 1 - 2 * s * s).
  { replace a with (2 * (a / 2)) at 1 by field. apply cos_2a_sin. }
  assert (Hq : qdot (quat_about_z c s) (quat_about_z c s) = 1).
  { cbv [qdot quat_about_z qw qx qy qz]. in_reals. lra. }
  assert (He : edge_normal (quat_about_z c s) = mkVec3 (- (2 * s * c)) (1 - 2 * s * s) 0).
  { unfold edge_normal, vec4_mul_quat, inverse. rewrite Hq.
    cbv [qrot4 qrot conjugate quat_about_z cross add scale set_x set_z
         vec3_of vec4_of forwVec x y z x4 y4 z4 w4 qw qx qy qz
         num half sadd ssub smul sdiv ssqrt sneg reals].
    f_equal; field. }
  rewrite He, Hsin, Hcos. split; [reflexivity|]. split.
  - cbv [qrot quat_about_z cross add scale forwVec x y z qw qx qy qz
         num half sadd ssub smul sdiv ssqrt sneg reals].
    f_equal; ring.
  - unfold length, dot. cbn [x y z]. in_reals.
    replace (- (2 * s * c) * - (2 * s * c) + (1 - 2 * s * s) * (1 - 2 * s * s) + 0 * 0)
      with (1 + 4 * (s * s) * (s * s + c * c - 1)) by ring.
    rewrite Hsc. replace (1 + 4 * (s * s) * (1 - 1)) with 1 by ring. apply sqrt_1.
Qed.

End BounceMore.
(** ** More facts about the loop *)

Module LoopMore.
Import Glm AsReal Game GameFacts LoopTerms.

#[local] Arguments line : simpl never.

(** *** Goal detection *)



(** *** Arrow keys *)

Lemma net_force_one (f : vec3) :
  Controls.net_force [Engine.CallApplyForce f] = add f (splat 0).
Proof. reflexivity. Qed.

(** X11. The arrow keys only hand forces to the puck's body: one
    [ApplyForce] call per pressed key, the velocity untouched, and a total
    force of [10 * (right - left)] along x and [10 * (up - down)] along y,
    so opposite keys cancel and two keys at right angles add up. *)
Theorem key_forces_net_force (inp : FrameInput) (w : World) (rb : Engine.RigidBody R) :
  Engine.rigidBody (puck w) = Some rb →
  ∃ rb' new,
    key_forces inp w = Some (set_puck (Engine.set_rigidBody rb' (puck w)) w) ∧
    Engine.Velocity rb' = Engine.Velocity rb ∧
    Engine.Calls rb' = Engine.Calls rb ++ new ∧
    List.length new =
      (nat_one_if (key_up inp) + nat_one_if (key_down inp) +
       nat_one_if (key_right inp) + nat_one_if (key_left inp))%nat ∧
    Controls.net_force new =
      mkVec3 (10 * one_if (key_right inp) - 10 * one_if (key_left inp))
             (10 * one_if (key_up inp) - 10 * one_if (key_down inp))
             0.
Proof.
  destruct w as [l r rc ls [nm pos rot b] o]. cbn [puck Engine.rigidBody].
  intros ->. unfold key_forces, seq_stmt, when, skip, on_rigid_puck.
  destruct (key_up inp), (key_down inp), (key_right inp), (key_left inp);
    cbn [mbind option_bind puck set_puck Engine.rigidBody Engine.set_rigidBody
         Engine.Name Engine.Position Engine.Rotation lScore rScore resetCheck
         Lights out Engine.ApplyForce Engine.Velocity Engine.Calls];
    eexists _, _;
    (split; [reflexivity|]); (split; [reflexivity|]);
    (split; [cbn [Engine.Calls Engine.ApplyForce]; rewrite <- ?app_assoc;
             first [reflexivity | symmetry; apply app_nil_r]|]);
    (split; [reflexivity|]);
    cbv [Controls.net_force app add splat one_if x y z sadd reals]; f_equal; lra.
Qed.

Lemma key_forces_net_force_witness :
  ∃ rb' new,
    key_forces (mkFrameInput (splat 0) (mkQuat 1 0 0 0)
                             (Engine.mkRigidBody (splat 0) []) true true true false)
               init
    = Some (set_puck (Engine.set_rigidBody rb' (puck init)) init) ∧
    Engine.Calls rb' = new ∧
    Controls.net_force new = mkVec3 10 0 0.
Proof.
  destruct (key_forces_net_force
              (mkFrameInput (splat 0) (mkQuat 1 0 0 0)
                            (Engine.mkRigidBody (splat 0) []) true true true false)
              init (Engine.mkRigidBody (splat 0) []) eq_refl)
    as (rb' & new & H1 & _ & H3 & _ & H5).
  exists rb', new. split; [exact H1|]. split; [exact H3|].
  rewrite H5. cbv [one_if key_up key_down key_right key_left]. f_equal; lra.
Defined.

(** *** Wins and resets over whole runs *)

Lemma one_winner_init : one_winner init.
Proof.
  split; [exact between_frames_init|]. cbn [init lScore rScore resetCheck].
  split; [lia | discriminate].
Qed.

Lemma frame_one_winner (inp : FrameInput) (w : World) :
  one_winner w → ∃ w', frame inp w = Some w' ∧ one_winner w'.
Proof.
  intros (Hbf & Hnot & Hpend).
  destruct (frame_spec inp w Hbf)
    as (w1 & w' & _ & Hf & Hat & Hlo & Hhi & _ & Hw' & Hrc' & Hl' & Hr' & _).
  exists w'. split; [exact Hf|]. split; [exact Hw'|].
  pose proof Hbf as (_ & _ & Hl & Hr).
  assert (Hex : left_goal inp = true → right_goal inp = false)
    by apply left_goal_not_right.
  destruct (decide (lScore w < 4 ∧ rScore w < 4)%Z) as [Hlow|Hhigh].
  - destruct (Hlo Hlow) as (Hl1 & Hr1 & Hrc1).
    rewrite Hl1 in Hl'. rewrite Hr1 in Hr'. rewrite Hrc1 in Hrc'.
    split; [|rewrite Hrc'; discriminate].
    destruct (left_goal inp); [rewrite Hex in Hr' by reflexivity|]; lia.
  - destruct Hhi as (Hl1 & Hr1 & Hrc1); [lia|].
    rewrite Hl1 in Hl'. rewrite Hr1 in Hr'.
    split; [|intros _];
      (destruct (left_goal inp); [rewrite Hex in Hr' by reflexivity|];
       destruct (right_goal inp); lia).
Qed.

Lemma run_one_winner (inps : list FrameInput) (w : World) :
  one_winner w → ∃ w', run inps w = Some w' ∧ one_winner w'.
Proof.
  revert w. induction inps as [|inp inps IH]; intros w Hw.
  - exists w. split; [reflexivity | exact Hw].
  - destruct (frame_one_winner inp w Hw) as (w1 & Hf & Hw1).
    destruct (IH w1 Hw1) as (w' & Hrun & Hw').
    exists w'. cbn [run]. rewrite Hf. auto.
Qed.

Lemma scoreCheckReset_out (w : World) :
  ∃ w1, scoreCheckReset w = Some w1 ∧
        out w1 = out w ++
                 (if bool_decide (lScore w >= 4)%Z then [red_wins]
                  else if bool_decide (rScore w >= 4)%Z then [blue_wins] else []).
Proof.
  unfold scoreCheckReset, red_wins, blue_wins.
  destruct (bool_decide (lScore w >= 4)%Z); cbv zeta; unfold_setters.
  - rewrite bool_decide_eq_false_2 by lia. eexists; split; reflexivity.
  - destruct (bool_decide (rScore w >= 4)%Z); unfold_setters;
      eexists; (split; [reflexivity|]); [reflexivity|].
    symmetry; apply app_nil_r.
Qed.

(** X12. In every run from the initial state the two counters are never
    both at 4, and while a reset is pending at most one goal has been
    counted since the win.  [scoreCheckReset] prints at most one line per
    call: the red line when the left counter has reached 4, else the blue
    line when the right one has, else nothing. *)
Theorem one_winner_at_a_time (inps : list FrameInput) :
  ∃ w w1,
    run inps init = Some w ∧
    ¬ (lScore w = 4 ∧ rScore w = 4)%Z ∧
    (resetCheck w = true → (lScore w + rScore w ≤ 1)%Z) ∧
    scoreCheckReset w = Some w1 ∧
    out w1 = out w ++
             (if bool_decide (lScore w = 4)%Z then [red_wins]
              else if bool_decide (rScore w = 4)%Z then [blue_wins] else []).
Proof.
  destruct (run_one_winner inps init one_winner_init) as (w & Hrun & Hbf & Hnot & Hpend).
  destruct (scoreCheckReset_out w) as (w1 & Hs & Hout).
  exists w, w1. split; [exact Hrun|]. split; [exact Hnot|]. split; [exact Hpend|].
  split; [exact Hs|]. rewrite Hout. destruct Hbf as (_ & _ & Hl & Hr).
  repeat case_bool_decide; try reflexivity; lia.
Qed.

Lemma colors_reset_lights (ls : list Light) :
  List.length ls = 10%nat →
  ∃ c0 c9, Color <$> reset_lights ls =
           [c0; black; black; black; black; black; black; black; black; c9].
Proof.
  intros Hlen.
  do 10 (destruct ls as [|? ls]; [cbn in Hlen; lia|]).
  destruct ls; [|cbn in Hlen; lia].
  eexists _, _. reflexivity.
Qed.

Ltac count_yellow :=
  repeat (first [ rewrite filter_cons_True by reflexivity
                | rewrite filter_cons_False by exact black_not_yellow
                | rewrite filter_nil ]);
  reflexivity.

(** X13. The lights are cleared one frame after the counters.  In a frame
    that starts with a reset pending, the flag is consumed and every pip is
    switched off, then goal detection may light one pip; the counters keep
    any goal that was counted in the frame that announced the win.  So after
    such a frame at most one pip is lit, whatever the counters say. *)
Theorem reset_frame_wipes_lights (inps : list FrameInput) (inp : FrameInput) :
  ∃ w w',
    run inps init = Some w ∧
    frame inp w = Some w' ∧
    (resetCheck w = true →
       resetCheck w' = false ∧
       lScore w' = (lScore w + Z_one_if (left_goal inp))%Z ∧
       rScore w' = (rScore w + Z_one_if (right_goal inp))%Z ∧
       lit_count 1 8 w' = nat_one_if (left_goal inp || right_goal inp)).
Proof.
  destruct (run_one_winner inps init one_winner_init) as (w & Hrun & Hbf & Hnot & Hpend).
  destruct (frame_spec inp w Hbf)
    as (w1 & w' & _ & Hf & Hat & Hlo & _ & Hc1 & Hw' & Hrc' & Hl' & Hr' & Hc').
  exists w, w'. split; [exact Hrun|]. split; [exact Hf|].
  intros Hrc. specialize (Hpend Hrc). pose proof Hbf as (Hlen & _ & Hl & Hr).
  destruct Hlo as (Hl1 & Hr1 & Hrc1); [lia|].
  rewrite Hl1 in *. rewrite Hr1 in *. rewrite Hrc in Hc1.
  destruct (colors_reset_lights (Lights w) Hlen) as (c0 & c9 & Hreset).
  rewrite Hreset in Hc1. rewrite Hc1 in Hc'.
  split; [congruence|]. unfold Z_one_if. split; [exact Hl'|]. split; [exact Hr'|].
  unfold lit_count. rewrite Hc'.
  destruct (left_goal inp) eqn:El; [|destruct (right_goal inp) eqn:Er].
  - cbn [orb nat_one_if].
    assert (lScore w = 0 ∨ lScore w = 1)%Z as [-> | ->] by lia.
    + change (take 8 (drop 1 (<[Z.to_nat (0 + 1) := yellow]>
                [c0; black; black; black; black; black; black; black; black; c9])))
        with [yellow; black; black; black; black; black; black; black].
      count_yellow.
    + change (take 8 (drop 1 (<[Z.to_nat (1 + 1) := yellow]>
                [c0; black; black; black; black; black; black; black; black; c9])))
        with [black; yellow; black; black; black; black; black; black].
      count_yellow.
  - cbn [orb nat_one_if].
    assert (rScore w = 0 ∨ rScore w = 1)%Z as [-> | ->] by lia.
    + change (take 8 (drop 1 (<[Z.to_nat (0 + 1 + 4) := yellow]>
                [c0; black; black; black; black; black; black; black; black; c9])))
        with [black; black; black; black; yellow; black; black; black].
      count_yellow.
    + change (take 8 (drop 1 (<[Z.to_nat (1 + 1 + 4) := yellow]>
                [c0; black; black; black; black; black; black; black; black; c9])))
        with [black; black; black; black; black; yellow; black; black].
      count_yellow.
  - cbn [orb nat_one_if].
    change (take 8 (drop 1
              [c0; black; black; black; black; black; black; black; black; c9]))
      with [black; black; black; black; black; black; black; black].
    count_yellow.
Qed.

Lemma win_then_goal_run :
  ∃ v, run win_then_goal init = Some v ∧
       resetCheck v = true ∧ lScore v = 1%Z ∧ rScore v = 0%Z.
Proof.
  destruct fourth_left_goal
    as (v3 & v4 & Hrun & _ & _ & _ & Hf4 & Hbf4 & Hl4 & Hr4 & _).
  destruct (frame_spec (input_at 18) v4 Hbf4)
    as (w1 & v5 & _ & Hf5 & _ & _ & Hhi & _ & _ & Hrc5 & Hl5 & Hr5 & _).
  destruct Hhi as (Hl1 & Hr1 & Hrc1); [lia|].
  rewrite (left_goal_input_at 18) in Hl5 by lra.
  rewrite (left_goal_not_right _ (left_goal_input_at 18 ltac:(lra))) in Hr5.
  exists v5. unfold win_then_goal.
  rewrite run_app, Hrun. cbn [mbind option_bind run]. rewrite Hf4.
  cbn [mbind option_bind]. rewrite Hf5. cbn [mbind option_bind].
  repeat split; [congruence | lia | lia].
Qed.

Lemma reset_frame_wipes_lights_witness :
  ∃ w', run (win_then_goal ++ [input_at 0]) init = Some w' ∧
        lScore w' = 1%Z ∧ lit_count 1 8 w' = 0%nat.
Proof.
  destruct win_then_goal_run as (v & Hv & Hrc & Hl & _).
  destruct (reset_frame_wipes_lights win_then_goal (input_at 0))
    as (w & w' & Hw & Hf & H).
  assert (w = v) by congruence. subst w.
  destruct (H Hrc) as (_ & Hl' & _ & Hcount).
  destruct (no_goal_input_at 0 ltac:(lra)) as [El Er].
  rewrite El in Hl', Hcount. rewrite Er in Hcount.
  exists w'. rewrite run_app, Hv. cbn [mbind option_bind run]. rewrite Hf.
  split; [reflexivity|]. cbn [Z_one_if orb nat_one_if] in *. split; [lia | exact Hcount].
Defined.

(** *** What a run never changes about the lights *)

Lemma same_fixtures_refl (ls : list Light) : same_fixtures ls ls.
Proof. repeat split. Qed.

Lemma same_fixtures_trans (ls1 ls2 ls3 : list Light) :
  same_fixtures ls1 ls2 → same_fixtures ls2 ls3 → same_fixtures ls1 ls3.
Proof.
  intros (H1 & H2 & H3 & H4) (K1 & K2 & K3 & K4).
  repeat split; congruence.
Qed.

Lemma same_fixtures_reset (ls : list Light) :
  List.length ls = 10%nat → same_fixtures ls (reset_lights ls).
Proof.
  intros Hlen.
  do 10 (destruct ls as [|? ls]; [cbn in Hlen; lia|]).
  destruct ls; [|cbn in Hlen; lia].
  repeat split.
Qed.

Lemma same_fixtures_color (ls : list Light) (k : nat) (l : Light) (c : vec3) :
  ls !! k = Some l → (1 ≤ k ≤ 8)%nat →
  same_fixtures ls (<[k := mkLight (Position l) c (Range l)]> ls).
Proof.
  intros Hl Hk. unfold same_fixtures.
  rewrite !fmap_take, !list_fmap_insert. cbn [Range Position Color].
  rewrite (list_insert_id (Range <$> ls)) by (rewrite list_lookup_fmap, Hl; reflexivity).
  rewrite (list_insert_id (Position <$> ls)) by (rewrite list_lookup_fmap, Hl; reflexivity).
  rewrite !list_lookup_insert_ne by lia. auto.
Qed.

Lemma same_fixtures_position (ls : list Light) (l : Light) (p : vec3) :
  ls !! 9%nat = Some l →
  same_fixtures ls (<[9%nat := mkLight p (Color l) (Range l)]> ls).
Proof.
  intros Hl. unfold same_fixtures.
  rewrite take_insert_ge by lia. rewrite !list_fmap_insert. cbn [Range Color].
  rewrite (list_insert_id (Range <$> ls)) by (rewrite list_lookup_fmap, Hl; reflexivity).
  rewrite (list_insert_id (Color <$> ls)) by (rewrite list_lookup_fmap, Hl; reflexivity).
  auto.
Qed.

Lemma goal_detection_fixtures (w : World) :
  at_goal_detection w →
  ∃ w', goal_detection w = Some w' ∧
        List.length (Lights w') = 10%nat ∧
        same_fixtures (Lights w) (Lights w').
Proof.
  intros Hat. pose proof Hat as (Hlen & [rb Hb] & Hl & Hr).
  destruct (Rle_dec (x (Engine.Position (puck w))) (-17.6)) as [Hle|Hnle];
    [|destruct (Rge_dec (x (Engine.Position (puck w))) 17.6) as [Hge|Hnge]].
  - destruct (goal_detection_right w rb Hat Hb Hle) as (l & Hlk & Hg).
    eexists. split; [exact Hg|]. cbn [Lights]. rewrite length_insert.
    split; [exact Hlen|]. apply same_fixtures_color; [exact Hlk | lia].
  - destruct (goal_detection_left w rb Hat Hb Hge) as (l & Hlk & Hg).
    eexists. split; [exact Hg|]. cbn [Lights]. rewrite length_insert.
    split; [exact Hlen|]. apply same_fixtures_color; [exact Hlk | lia].
  - rewrite goal_detection_none by lra.
    eexists. split; [reflexivity|]. split; [exact Hlen | apply same_fixtures_refl].
Qed.

Lemma frame_fixtures (inp : FrameInput) (w : World) :
  between_frames w →
  ∃ w', frame inp w = Some w' ∧
        between_frames w' ∧
        same_fixtures (Lights w) (Lights w') ∧
        ∃ l9, Lights w' !! 9%nat = Some l9 ∧
              Position l9 = mkVec3 (x (Engine.Position (puck w')))
                                   (y (Engine.Position (puck w')))
                                   (z (Engine.Position (puck w')) + 3).
Proof.
  intros Hbf. pose proof Hbf as (Hlen & _).
  destruct (frame_spec inp w Hbf)
    as (w1' & w'' & Hw1' & Hf' & _ & _ & _ & _ & Hbf' & _).
  destruct (before_goal_detection_spec inp w Hbf)
    as (w1 & Hw1 & Hat & _ & _ & _ & HL1).
  destruct (goal_detection_fixtures w1 Hat) as (w2 & Hw2 & Hlen2 & Hfix2).
  destruct (follow_puck_Some w2 Hlen2) as (l9 & Hl9 & Hw3).
  assert (Hf : frame inp w = Some (set_Lights
             (<[9%nat := mkLight (mkVec3 (x (Engine.Position (puck w2)))
                                         (y (Engine.Position (puck w2)))
                                         (z (Engine.Position (puck w2)) + 3))
                                 (Color l9) (Range l9)]> (Lights w2)) w2)).
  { rewrite frame_split, Hw1. cbn [mbind option_bind].
    rewrite (seq_Some _ _ _ _ Hw2). exact Hw3. }
  eexists. split; [exact Hf|].
  split. { rewrite Hf in Hf'. injection Hf' as ->. exact Hbf'. }
  cbn [Lights set_Lights puck]. split.
  - apply (same_fixtures_trans _ (Lights w1)).
    + rewrite HL1. destruct (resetCheck w);
        [apply same_fixtures_reset, Hlen | apply same_fixtures_refl].
    + apply (same_fixtures_trans _ (Lights w2)); [exact Hfix2|].
      apply same_fixtures_position, Hl9.
  - eexists. split; [apply list_lookup_insert_eq; lia | reflexivity].
Qed.

Lemma run_fixtures (inps : list FrameInput) (w : World) :
  between_frames w →
  ∃ w', run inps w = Some w' ∧
        same_fixtures (Lights w) (Lights w') ∧
        (inps ≠ [] →
         ∃ l9, Lights w' !! 9%nat = Some l9 ∧
               Position l9 = mkVec3 (x (Engine.Position (puck w')))
                                    (y (Engine.Position (puck w')))
                                    (z (Engine.Position (puck w')) + 3)).
Proof.
  revert w. induction inps as [|inp inps IH]; intros w Hbf.
  - exists w. split; [reflexivity|]. split; [apply same_fixtures_refl | congruence].
  - destruct (frame_fixtures inp w Hbf) as (w1 & Hf & Hbf1 & Hfix1 & Hl9).
    destruct (IH w1 Hbf1) as (w' & Hrun & Hfix & Hl9').
    exists w'. cbn [run]. rewrite Hf. split; [exact Hrun|].
    split; [eapply same_fixtures_trans; eassumption|].
    intros _. destruct inps as [|inp' inps'].
    + cbn [run] in Hrun. injection Hrun as <-. exact Hl9.
    + apply Hl9'. discriminate.
Qed.

(** X14. No run from the initial state moves a score light or changes a
    range: the lights 0 to 8 stay where [CreateScene] put them, all ten
    ranges and the colours of lights 0 and 9 stay as set up, through goals,
    wins and resets alike.  Light 9 alone moves: after each frame it sits 3
    above the place where that frame left the puck, the goal teleport
    included. *)
Theorem lights_keep_their_fixtures (inps : list FrameInput) :
  ∃ w, run inps init = Some w ∧
       same_fixtures CreateScene_Lights (Lights w) ∧
       (inps ≠ [] →
        ∃ l9, Lights w !! 9%nat = Some l9 ∧
              Position l9 = mkVec3 (x (Engine.Position (puck w)))
                                   (y (Engine.Position (puck w)))
                                   (z (Engine.Position (puck w)) + 3)).
Proof.
  destruct (run_fixtures inps init between_frames_init) as (w & Hrun & Hfix & H9).
  exists w. auto.
Qed.

Lemma lights_keep_their_fixtures_witness :
  ∃ w l9, run [input_at 18] init = Some w ∧
          Lights w !! 9%nat = Some l9 ∧
          Position l9 = mkVec3 (-9.5) 0 (-1 + 3).
Proof.
  destruct (lights_keep_their_fixtures [input_at 18]) as (w & Hrun & _ & H9).
  destruct H9 as (l9 & Hl9 & Hp); [discriminate|].
  exists w, l9. split; [exact Hrun|]. split; [exact Hl9|].
  rewrite Hp. clear Hp Hl9.
  cbn [run] in Hrun.
  destruct (frame (input_at 18) init) as [w1|] eqn:Hf; [|discriminate].
  cbn [mbind option_bind] in Hrun. injection Hrun as <-.
  destruct (before_goal_detection_spec (input_at 18) init between_frames_init)
    as (v1 & Hv1 & Hat & Hpos & _).
  pose proof Hat as (Hlen & [rb Hb] & _).
  destruct (goal_detection_left v1 rb Hat Hb) as (l & _ & Hg).
  { rewrite Hpos. cbn [input_at in_position x]. lra. }
  rewrite frame_split, Hv1 in Hf. cbn [mbind option_bind] in Hf.
  rewrite (seq_Some _ _ _ _ Hg) in Hf.
  unfold follow_puck, set_light_position in Hf.
  destruct (light_at 9 _) in Hf; [|discriminate].
  cbn [mbind option_bind] in Hf. injection Hf as <-.
  reflexivity.
Defined.

(** *** The loop needs all ten lights *)

Lemma set_light_color_length (i : Z) (c : vec3) (w w' : World) :
  set_light_color i c w = Some w' →
  List.length (Lights w') = List.length (Lights w).
Proof.
  unfold set_light_color. destruct (light_at i w); [|discriminate].
  cbn [mbind option_bind]. intros [= <-]. cbn [Lights set_Lights]. apply length_insert.
Qed.

Lemma lightReset_steps_length (idx : list Z) (acc : option World) (w' : World) :
  foldl (λ acc i, acc ≫= set_light_color i black) acc idx = Some w' →
  ∃ w0, acc = Some w0 ∧ List.length (Lights w') = List.length (Lights w0).
Proof.
  revert acc. induction idx as [|i idx IH]; intros acc H.
  - exists w'. auto.
  - cbn [foldl] in H. destruct (IH _ H) as (w1 & H1 & Hlen).
    destruct acc as [w0|]; [|discriminate].
    exists w0. split; [reflexivity|].
    cbn [mbind option_bind] in H1.
    rewrite Hlen. eapply set_light_color_length; exact H1.
Qed.

Lemma checkIsReseting_length (w w' : World) :
  checkIsReseting w = Some w' →
  List.length (Lights w') = List.length (Lights w).
Proof.
  unfold checkIsReseting. destruct (resetCheck w); [|intros [= <-]; reflexivity].
  destruct (lightReset _) as [w1|] eqn:Hr; [|discriminate].
  cbn [mbind option_bind]. intros [= <-].
  unfold lightReset in Hr. destruct (lightReset_steps_length _ _ _ Hr) as (w0 & [= <-] & Hlen).
  exact Hlen.
Qed.

Lemma scoreCheckReset_length (w w' : World) :
  scoreCheckReset w = Some w' →
  List.length (Lights w') = List.length (Lights w).
Proof.
  destruct (scoreCheckReset_Some w) as (w1 & H1 & HL & _).
  rewrite H1. intros [= <-]. rewrite HL. reflexivity.
Qed.

Lemma key_forces_length (inp : FrameInput) (w w' : World) :
  key_forces inp w = Some w' →
  List.length (Lights w') = List.length (Lights w).
Proof.
  unfold key_forces, seq_stmt, when, skip, on_rigid_puck.
  destruct w as [l r rc ls [nm pos rot [b|]] o];
    destruct (key_up inp), (key_down inp), (key_right inp), (key_left inp);
    cbn [mbind option_bind puck set_puck Engine.rigidBody Engine.set_rigidBody
         lScore rScore resetCheck Lights out];
    intros [= <-]; reflexivity.
Qed.

Lemma scoreCheck_length (isLeft : bool) (w w' : World) :
  scoreCheck isLeft w = Some w' →
  List.length (Lights w') = List.length (Lights w).
Proof.
  unfold scoreCheck. destruct isLeft.
  - destruct (int_add (lScore w) 1); [|discriminate]. cbn [mbind option_bind].
    intros H. apply set_light_color_length in H. exact H.
  - destruct (int_add (rScore w) 1); [|discriminate]. cbn [mbind option_bind].
    destruct (int_add _ 4); [|discriminate]. cbn [mbind option_bind].
    intros H. apply set_light_color_length in H. exact H.
Qed.

Lemma goal_branch_length (isLeft : bool) (p : vec3) (w w' : World) :
  (scoreCheck isLeft >>
   pure (λ w, set_puck (Engine.SetPostion p (puck w)) w) >>
   on_rigid_puck Engine.resetVelocity) w = Some w' →
  List.length (Lights w') = List.length (Lights w).
Proof.
  unfold seq_stmt, pure, on_rigid_puck.
  destruct (scoreCheck isLeft w) as [w1|] eqn:H1; [|discriminate].
  apply scoreCheck_length in H1. cbn [mbind option_bind puck set_puck].
  destruct (Engine.rigidBody _); [|discriminate]. cbn [mbind option_bind].
  intros [= <-]. exact H1.
Qed.

Lemma seq_keeps_length (s t : stmt) :
  (∀ w w', s w = Some w' → List.length (Lights w') = List.length (Lights w)) →
  (∀ w w', t w = Some w' → List.length (Lights w') = List.length (Lights w)) →
  ∀ w w', (s >> t) w = Some w' → List.length (Lights w') = List.length (Lights w).
Proof.
  intros Hs Ht w w'. unfold seq_stmt.
  destruct (s w) as [w1|] eqn:H1; [|discriminate]. cbn [mbind option_bind].
  intros H2. rewrite (Ht _ _ H2). apply Hs, H1.
Qed.

Lemma when_keeps_length (b : bool) (s : stmt) :
  (∀ w w', s w = Some w' → List.length (Lights w') = List.length (Lights w)) →
  ∀ w w', when b s w = Some w' → List.length (Lights w') = List.length (Lights w).
Proof.
  intros Hs w w'. destruct b; cbn [when skip]; [apply Hs|].
  intros [= <-]. reflexivity.
Qed.

Lemma goal_detection_length (w w' : World) :
  goal_detection w = Some w' →
  List.length (Lights w') = List.length (Lights w).
Proof.
  unfold goal_detection. cbv zeta.
  apply seq_keeps_length; apply when_keeps_length; apply goal_branch_length.
Qed.

Lemma frame_runs_off_lights (inp : FrameInput) (w : World) :
  (List.length (Lights w) < 10)%nat → frame inp w = None.
Proof.
  intros Hlen. unfold frame, seq_stmt.
  destruct (checkIsReseting w) as [w1|] eqn:H1; [|reflexivity].
  apply checkIsReseting_length in H1. cbn [mbind option_bind].
  destruct (scoreCheckReset w1) as [w2|] eqn:H2; [|reflexivity].
  apply scoreCheckReset_length in H2. cbn [mbind option_bind].
  unfold engine_update at 1. cbn [mbind option_bind].
  destruct (key_forces inp _) as [w4|] eqn:H4; [|reflexivity].
  apply key_forces_length in H4. cbn [Lights set_puck] in H4. cbn [mbind option_bind].
  destruct (goal_detection w4) as [w5|] eqn:H5; [|reflexivity].
  apply goal_detection_length in H5. cbn [mbind option_bind].
  unfold follow_puck, set_light_position, light_at.
  rewrite bool_decide_eq_true_2 by lia.
  rewrite (lookup_ge_None_2 (Lights w5)) by (cbn; lia). reflexivity.
Qed.

Lemma frame_length (inp : FrameInput) (w w' : World) :
  frame inp w = Some w' → List.length (Lights w') = List.length (Lights w).
Proof.
  unfold frame. revert w w'.
  apply seq_keeps_length; [apply checkIsReseting_length|].
  apply seq_keeps_length; [apply scoreCheckReset_length|].
  apply seq_keeps_length;
    [intros w w'; unfold engine_update; intros [= <-]; reflexivity|].
  apply seq_keeps_length; [apply key_forces_length|].
  apply seq_keeps_length; [apply goal_detection_length|].
  - intros w w'. unfold follow_puck, set_light_position.
    destruct (light_at 9 w); [|discriminate]. cbn [mbind option_bind].
    intros [= <-]. cbn [Lights set_Lights]. apply length_insert.
Qed.

(** X15. The loop needs all ten lights.  Once the vector holds fewer than
    ten, as after a "Delete" in the lights editor, every frame runs off its
    end: nothing shortens or extends the vector on the way, and the write to
    [Lights[9]] that ends the frame is outside it.  A frame that does
    complete returns as many lights as it was given. *)
Theorem frame_needs_ten_lights (inp : FrameInput) (w : World) :
  ((List.length (Lights w) < 10)%nat → frame inp w = None) ∧
  (∀ w', frame inp w = Some w' →
         List.length (Lights w') = List.length (Lights w) ∧
         (10 ≤ List.length (Lights w))%nat).
Proof.
  split; [apply frame_runs_off_lights|].
  intros w' Hf. split; [apply (frame_length inp), Hf|].
  destruct (le_lt_dec 10 (List.length (Lights w))) as [H|H]; [exact H|].
  rewrite (frame_runs_off_lights inp w H) in Hf. discriminate.
Qed.

Lemma frame_needs_ten_lights_witness :
  frame (input_at 0) (set_Lights (take 9 CreateScene_Lights) init) = None.
Proof.
  apply (frame_needs_ten_lights (input_at 0)
           (set_Lights (take 9 CreateScene_Lights) init)).
  cbn. lia.
Defined.

End LoopMore.
(** ** Facts about the paddles and the count-down *)

Module ControlsFacts.
Import Glm Engine AsReal Controls.

(** X16. The blue paddle never moves diagonally.  Each of W, A, S, D sets
    the position from the one cached before the first test, so a later key
    overrides an earlier one: D wins over S, S over A, A over W.  The paddle
    moves by exactly 0.1 along one axis, or not at all, and nothing else
    about it changes. *)
Theorem paddle_blue_last_key_wins (key_W key_A key_S key_D : bool)
        (paddle_B : GameObject) :
  let p := Position paddle_B in
  let paddle' := paddle_blue_control key_W key_A key_S key_D paddle_B in
  Position paddle' =
    (if key_D then mkVec3 (x p + 0.1) (y p) (z p)
     else if key_S then mkVec3 (x p) (y p - 0.1) (z p)
     else if key_A then mkVec3 (x p - 0.1) (y p) (z p)
     else if key_W then mkVec3 (x p) (y p + 0.1) (z p)
     else p) ∧
  (x (Position paddle') = x p ∨ y (Position paddle') = y p) ∧
  z (Position paddle') = z p ∧
  Name paddle' = Name paddle_B ∧
  Rotation paddle' = Rotation paddle_B ∧
  rigidBody paddle' = rigidBody paddle_B.
Proof.
  intros p paddle'. subst p paddle'. unfold paddle_blue_control, keyMoveSpeed.
  destruct paddle_B as [nm [px py pz] rot b].
  destruct key_W, key_A, key_S, key_D;
    cbn [SetPostion Position Name Rotation rigidBody x y z]; auto 10.
Qed.

Lemma field_half (a b w : R) :
  w ≠ 0 → (a / (w / 2) - b / (w / 2)) * 20 = 40 * (a - b) / w.
Proof. intros Hw. field. exact Hw. Qed.

(** X17. One frame of the red paddle's mouse control.  Whatever the
    button does, the frame ends with the baseline latched to the cursor and
    [isFirstClick] can only go from true to false.  The paddle moves only
    in a frame with the button down after the first click, and then by 40
    times the cursor's offset from the baseline divided by the window size,
    the y offset reversed; its z never changes. *)
Theorem paddle_red_frame (inp : MouseInput) (m : Mouse) (paddle_R : GameObject) :
  windowX inp ≠ 0%Z → windowY inp ≠ 0%Z →
  let m' := fst (paddle_red_control inp m paddle_R) in
  let paddle' := snd (paddle_red_control inp m paddle_R) in
  let p := Position paddle_R in
  (f0_cursorPosX m', f0_cursorPosY m') = cursor_latch inp ∧
  isFirstClick m' = isFirstClick m && negb (button_pressed inp) ∧
  (button_pressed inp = false ∨ isFirstClick m = true → paddle' = paddle_R) ∧
  (button_pressed inp = true → isFirstClick m = false →
   Position paddle' =
     mkVec3 (x p + 40 * (fst (cursor_read inp) - f0_cursorPosX m) / IZR (windowX inp))
            (y p - 40 * (snd (cursor_read inp) - f0_cursorPosY m) / IZR (windowY inp))
            (z p)) ∧
  Name paddle' = Name paddle_R ∧ Rotation paddle' = Rotation paddle_R ∧
  rigidBody paddle' = rigidBody paddle_R.
Proof.
  intros Hwx Hwy m' paddle' p. subst m' paddle' p.
  apply (not_0_IZR (windowX inp)) in Hwx. apply (not_0_IZR (windowY inp)) in Hwy.
  unfold paddle_red_control.
  destruct (cursor_latch inp) as [lx ly] eqn:Hlatch.
  destruct m as [fx fy first]. cbn [f0_cursorPosX f0_cursorPosY isFirstClick].
  destruct (button_pressed inp), first;
    cbn [negb andb fst snd f0_cursorPosX f0_cursorPosY isFirstClick
         SetPostion Position Name Rotation rigidBody];
    (split; [reflexivity|]); (split; [reflexivity|]);
    (split; [intros [?|?]; first [discriminate | reflexivity]|]);
    (split; [|auto]); intros; try discriminate.
  destruct (Position paddle_R) as [px py pz].
  unfold add, scale. cbn [x y z]. cbv [sadd smul reals]. f_equal.
  - rewrite field_half by exact Hwx. lra.
  - rewrite <- Ropp_mult_distr_l, field_half by exact Hwy. lra.
  - lra.
Qed.

Lemma paddle_red_frame_witness :
  Position (snd (paddle_red_control
                   (mkMouseInput true (410, 300) (410, 300) 800 600) mouse0 paddle0))
  = mkVec3 (-5 + 40 * (410 - 400) / 800) (0 - 40 * (300 - 300) / 600) (-8.01).
Proof.
  destruct (paddle_red_frame (mkMouseInput true (410, 300) (410, 300) 800 600)
              mouse0 paddle0) as (_ & _ & _ & H & _); [discriminate | discriminate |].
  apply H; reflexivity.
Defined.

Lemma last_latch_cons (inp : MouseInput) (inps : list MouseInput) (m m1 : Mouse) :
  (f0_cursorPosX m1, f0_cursorPosY m1) = cursor_latch inp →
  last_latch (inp :: inps) m = last_latch inps m1.
Proof.
  intros H. unfold last_latch. destruct inps as [|inp' inps'].
  - cbn. congruence.
  - rewrite last_cons. destruct (last (inp' :: inps')) eqn:Hl; [reflexivity|].
    apply last_None in Hl. discriminate.
Qed.

(** X18. A steady drag follows the cursor.  Over any run of frames with
    the button held, after the first click, in a window of fixed size, the
    red paddle ends displaced by 40 times the cursor's net movement divided
    by the window size (y reversed), whatever path the cursor took, and the
    baseline ends at the last cursor position. *)
Theorem paddle_red_drag (wx wy : Z) (inps : list MouseInput) (m : Mouse)
        (paddle_R : GameObject) :
  wx ≠ 0%Z → wy ≠ 0%Z →
  isFirstClick m = false →
  Forall (steady_drag wx wy) inps →
  let m' := fst (paddle_red_frames inps m paddle_R) in
  let paddle' := snd (paddle_red_frames inps m paddle_R) in
  let p := Position paddle_R in
  let c := last_latch inps m in
  (f0_cursorPosX m', f0_cursorPosY m') = c ∧
  isFirstClick m' = false ∧
  Position paddle' =
    mkVec3 (x p + 40 * (fst c - f0_cursorPosX m) / IZR wx)
           (y p - 40 * (snd c - f0_cursorPosY m) / IZR wy)
           (z p).
Proof.
  intros Hwx Hwy. cbv zeta. revert m paddle_R.
  induction inps as [|inp inps IH]; intros m paddle_R Hfirst Hall.
  - cbn [paddle_red_frames fst snd last_latch last]. unfold last_latch. cbn [last fst snd].
    split; [reflexivity|]. split; [exact Hfirst|].
    destruct (Position paddle_R) as [px py pz]. cbn [x y z].
    apply (not_0_IZR wx) in Hwx. apply (not_0_IZR wy) in Hwy.
    f_equal; field; assumption.
  - apply Forall_cons in Hall as [(Hpress & Hsame & Hx & Hy) Hall].
    destruct (paddle_red_frame inp m paddle_R) as (Hlatch & Hfc & _ & Hmove & _);
      [congruence | congruence |].
    specialize (Hmove Hpress Hfirst). rewrite Hfirst in Hfc. cbn [andb] in Hfc.
    cbn [paddle_red_frames].
    destruct (paddle_red_control inp m paddle_R) as [m1 paddle1].
    cbn [fst snd] in Hlatch, Hfc, Hmove.
    destruct (IH m1 paddle1 Hfc Hall) as (H1 & H2 & H3).
    rewrite (last_latch_cons inp inps m m1 Hlatch).
    split; [exact H1|]. split; [exact H2|].
    rewrite H3, Hmove. cbn [x y z].
    assert (Hm1 : f0_cursorPosX m1 = fst (cursor_read inp) ∧
                  f0_cursorPosY m1 = snd (cursor_read inp)).
    { rewrite Hsame, <- Hlatch. auto. }
    destruct Hm1 as [-> ->]. rewrite Hx, Hy.
    apply (not_0_IZR wx) in Hwx. apply (not_0_IZR wy) in Hwy.
    f_equal; field; assumption.
Qed.

Lemma paddle_red_drag_witness :
  Position (snd (paddle_red_frames drag0 mouse0 paddle0))
  = mkVec3 (-5 + 40 * (420 - 400) / 800) (0 - 40 * (330 - 300) / 600) (-8.01).
Proof.
  destruct (paddle_red_drag 800 600 drag0 mouse0 paddle0) as (_ & _ & H).
  - discriminate.
  - discriminate.
  - reflexivity.
  - repeat constructor.
  - exact H.
Defined.

(** *** The count-down loop *)

Lemma countDown_loop_step (fuel : nat) (dt c : R) :
  c > 0 → countDown_loop (S fuel) dt c = countDown_loop fuel dt (c - dt).
Proof.
  intros Hc. cbn [countDown_loop]. rewrite bool_decide_eq_true_2 by exact Hc.
  reflexivity.
Qed.

(** X19. With [dt] zero or negative and a positive count-down the loop
    never ends: the count-down does not go down, so no number of iterations
    reaches the exit.  [dt] is zero when the clock has not advanced since
    [lastFrame] was taken, or when the playback speed, which the slider
    lets go down to 0, is 0. *)
Theorem countDown_hangs (dt countDown : R) :
  dt <= 0 → countDown > 0 →
  ∀ fuel, countDown_loop fuel dt countDown = None.
Proof.
  intros Hdt Hc fuel. revert countDown Hc.
  induction fuel as [|fuel IH]; intros c Hc.
  - cbn [countDown_loop]. rewrite bool_decide_eq_true_2 by exact Hc. reflexivity.
  - rewrite countDown_loop_step by exact Hc. apply IH. lra.
Qed.

Lemma countDown_hangs_witness :
  countDown_loop 1000 0 2 = None.
Proof. apply countDown_hangs; lra. Defined.

End ControlsFacts.
(** ** Facts about the lights editor *)

Module EditorFacts.
Import Glm AsReal Game GameFacts LoopMore Editor.

Lemma set_Lights_twice (a b : list Light) (w : World) :
  set_Lights a (set_Lights b w) = set_Lights a w.
Proof. reflexivity. Qed.

Lemma set_Lights_same (w : World) : set_Lights (Lights w) w = w.
Proof. destruct w. reflexivity. Qed.

(** The loop at index [length pre], with [pre] already shown and [ls] still
    to show. *)
Lemma lights_loop_edited (ls pre : list Light) (fuel : nat) (gs : nat → gui)
      (calls : nat) (w : World) :
  Lights w = pre ++ ls →
  (List.length ls ≤ fuel)%nat →
  lights_loop fuel gs calls (Z.of_nat (List.length pre)) w
  = Some (set_Lights (pre ++ edited gs calls ls) w).
Proof.
  revert pre fuel calls w. induction ls as [|l ls IH]; intros pre fuel calls w HL Hfuel.
  - assert (Hend : bool_decide (0 ≤ Z.of_nat (List.length pre)
                                < Z.of_nat (List.length (Lights w)))%Z = false).
    { apply bool_decide_eq_false_2. rewrite HL, app_nil_r. lia. }
    destruct fuel; cbn [lights_loop edited]; rewrite Hend;
      rewrite <- HL, set_Lights_same; reflexivity.
  - destruct fuel as [|fuel]; [cbn in Hfuel; lia|].
    cbn [lights_loop]. rewrite bool_decide_eq_true_2
      by (rewrite HL, length_app; cbn [List.length]; lia).
    unfold DrawLightImGui, light_at.
    rewrite bool_decide_eq_true_2 by lia. rewrite Nat2Z.id.
    rewrite HL, list_lookup_middle by reflexivity. cbn [mbind option_bind edited].
    destruct (gs calls l) as [l' deleted].
    assert (Hins : <[List.length pre := l']> (pre ++ l :: ls) = pre ++ l' :: ls).
    { rewrite insert_app_r_alt by lia. rewrite Nat.sub_diag. reflexivity. }
    rewrite Hins. cbn [mbind option_bind]. destruct deleted.
    + cbn [Lights set_Lights]. rewrite delete_middle.
      replace (Z.of_nat (List.length pre) - 1 + 1)%Z with (Z.of_nat (List.length pre)) by lia.
      rewrite (IH pre fuel (S calls)); [reflexivity | reflexivity | cbn in Hfuel; lia].
    + replace (Z.of_nat (List.length pre) + 1)%Z
        with (Z.of_nat (List.length (pre ++ [l']))) by (rewrite length_app; cbn; lia).
      rewrite (IH (pre ++ [l']) fuel (S calls));
        [| cbn [Lights set_Lights]; rewrite <- app_assoc; reflexivity
         | cbn in Hfuel; lia].
      rewrite set_Lights_twice, <- app_assoc. reflexivity.
Qed.

Lemma edited_length (gs : nat → gui) (calls : nat) (ls : list Light) :
  (List.length (edited gs calls ls) + deletions gs calls ls = List.length ls)%nat.
Proof.
  revert calls. induction ls as [|l ls IH]; intros calls; [reflexivity|].
  cbn [edited deletions]. destruct (gs calls l) as [l' [|]];
    cbn [List.length]; specialize (IH (S calls)); lia.
Qed.

(** X21. The loop of the lights editor shows every light exactly once and
    in order, although it deletes from the vector it walks: a light whose
    "Delete" is pressed is erased and the light that slides into its place
    is shown next; the others are kept as edited, in their order.  The
    vector shrinks by the number of deletions and nothing else in the state
    changes. *)
Theorem lights_editor_shows_each_once (gs : nat → gui) (w : World) (fuel : nat) :
  (List.length (Lights w) ≤ fuel)%nat →
  ∃ w', lights_loop fuel gs 0 0 w = Some w' ∧
        w' = set_Lights (edited gs 0 (Lights w)) w ∧
        (List.length (Lights w') + deletions gs 0 (Lights w)
         = List.length (Lights w))%nat.
Proof.
  intros Hfuel. eexists. split.
  - apply (lights_loop_edited (Lights w) [] fuel gs 0 w); [reflexivity | exact Hfuel].
  - cbn [app]. split; [reflexivity|]. cbn [Lights set_Lights]. apply edited_length.
Qed.

Lemma lights_editor_shows_each_once_witness :
  ∃ w', lights_loop 10 delete_third 0 0 init = Some w' ∧
        List.length (Lights w') = 9%nat.
Proof.
  destruct (lights_editor_shows_each_once delete_third init 10)
    as (w' & H1 & H2 & H3).
  - cbn. lia.
  - exists w'. split; [exact H1|].
    assert (Hd : deletions delete_third 0 (Lights init) = 1%nat) by reflexivity.
    rewrite Hd in H3. cbn [init Lights CreateScene_Lights List.length] in H3. lia.
Defined.

(** X22. One "Delete" in the editor of the ten-light scene breaks the
    game: the loop leaves fewer than ten lights, and every frame run on the
    result fails at its write to [Lights[9]]. *)
Theorem delete_breaks_the_frame (gs : nat → gui) (w : World) (fuel : nat)
        (inp : FrameInput) :
  List.length (Lights w) = 10%nat →
  (10 ≤ fuel)%nat →
  (1 ≤ deletions gs 0 (Lights w))%nat →
  ∃ w', lights_loop fuel gs 0 0 w = Some w' ∧
        (List.length (Lights w') < 10)%nat ∧
        frame inp w' = None.
Proof.
  intros Hlen Hfuel Hdel.
  pose proof (lights_loop_edited (Lights w) [] fuel gs 0 w eq_refl) as Hloop.
  rewrite Hlen in Hloop. specialize (Hloop Hfuel). cbn [app List.length] in Hloop.
  pose proof (edited_length gs 0 (Lights w)) as Hed.
  eexists. split; [exact Hloop|].
  assert (Hshort : (List.length (Lights (set_Lights (edited gs 0 (Lights w)) w)) < 10)%nat)
    by (cbn [Lights set_Lights]; lia).
  split; [exact Hshort|]. apply frame_runs_off_lights. exact Hshort.
Qed.

Lemma delete_breaks_the_frame_witness :
  ∃ w', lights_loop 10 delete_third 0 0 init = Some w' ∧
        frame (input_at 0) w' = None.
Proof.
  destruct (delete_breaks_the_frame delete_third init 10 (input_at 0))
    as (w' & H1 & _ & H3).
  - reflexivity.
  - lia.
  - assert (Hd : deletions delete_third 0 (Lights init) = 1%nat) by reflexivity.
    rewrite Hd. lia.
  - exists w'. auto.
Defined.

End EditorFacts.
